(** * go-cbz-to-png: the CBZ-to-webtoon-strip pipeline of [main.go]

    A shallow embedding of [CreateWebtoonStrip], [isImageFile],
    [decodeImage] and [streamPNG], together with the pieces of the Go
    standard library they call ([image], [image/draw], [path/filepath],
    [strings], [sort], [archive/zip]) modelled after their documented
    behaviour. *)

From Stdlib Require Import ZArith Lia List Bool String Ascii.
From Stdlib Require Import Strings.Byte.
From Stdlib Require Import Sorting.Permutation Sorting.Sorted.
From Stdlib Require OrderedTypeEx.
Import ListNotations.

Local Open Scope Z_scope.

(** ** Go's [int]

    [int] is 64 bits wide on the targets a server like this one runs on;
    arithmetic wraps around in two's complement. *)

Module GoInt.

Definition int_max : Z := 2 ^ 63 - 1.
Definition int_min : Z := - 2 ^ 63.

Definition wrap (z : Z) : Z := (z + 2 ^ 63) mod 2 ^ 64 - 2 ^ 63.

Definition add (a b : Z) : Z := wrap (a + b).
Definition sub (a b : Z) : Z := wrap (a - b).

End GoInt.

(** ** Package [image]: points, rectangles, colours *)

Record Point := mkPoint { X : Z; Y : Z }.

Definition Point_Add (p q : Point) : Point :=
  mkPoint (GoInt.add (X p) (X q)) (GoInt.add (Y p) (Y q)).

Definition Point_Sub (p q : Point) : Point :=
  mkPoint (GoInt.sub (X p) (X q)) (GoInt.sub (Y p) (Y q)).

Record Rectangle := mkRectangle { Min : Point; Max : Point }.

(** [image.ZR], the zero rectangle. *)
Definition ZR : Rectangle := mkRectangle (mkPoint 0 0) (mkPoint 0 0).

(** [image.Rect(x0, y0, x1, y1)]: the coordinates are swapped where needed
    so that the result is well formed. *)
Definition Rect (x0 y0 x1 y1 : Z) : Rectangle :=
  let '(x0, x1) := if x1 <? x0 then (x1, x0) else (x0, x1) in
  let '(y0, y1) := if y1 <? y0 then (y1, y0) else (y0, y1) in
  mkRectangle (mkPoint x0 y0) (mkPoint x1 y1).

Definition Rectangle_Dx (r : Rectangle) : Z := GoInt.sub (X (Max r)) (X (Min r)).
Definition Rectangle_Dy (r : Rectangle) : Z := GoInt.sub (Y (Max r)) (Y (Min r)).

Definition Rectangle_Empty (r : Rectangle) : bool :=
  (X (Max r) <=? X (Min r)) || (Y (Max r) <=? Y (Min r)).

Definition Rectangle_Add (r : Rectangle) (p : Point) : Rectangle :=
  mkRectangle (Point_Add (Min r) p) (Point_Add (Max r) p).

(** [r.Intersect(s)]: the largest rectangle contained by both, [ZR] when
    they do not overlap. *)
Definition Rectangle_Intersect (r s : Rectangle) : Rectangle :=
  let x0 := Z.max (X (Min r)) (X (Min s)) in
  let y0 := Z.max (Y (Min r)) (Y (Min s)) in
  let x1 := Z.min (X (Max r)) (X (Max s)) in
  let y1 := Z.min (Y (Max r)) (Y (Max s)) in
  let t := mkRectangle (mkPoint x0 y0) (mkPoint x1 y1) in
  if Rectangle_Empty t then ZR else t.

(** [p.In(r)]. *)
Definition Point_In (p : Point) (r : Rectangle) : bool :=
  (X (Min r) <=? X p) && (X p <? X (Max r)) &&
  (Y (Min r) <=? Y p) && (Y p <? Y (Max r)).

(** A [color.Color] is observed through its one method [RGBA()], which
    returns four alpha-premultiplied [uint32] channels. *)
Record Color := mkColor { cr : Z; cg : Z; cb : Z; ca : Z }.

(** [color.RGBA], the pixel format of [*image.RGBA]: four [uint8]. *)
Record RGBA := mkRGBA { RGBA_R : Z; RGBA_G : Z; RGBA_B : Z; RGBA_A : Z }.

Definition uint8 (z : Z) : Z := Z.land z 255.

(** What [draw.Draw] with [draw.Src] and no mask stores for a source
    colour: [uint8(c >> 8)] per channel. *)
Definition RGBA_of_Color (c : Color) : RGBA :=
  mkRGBA (uint8 (Z.shiftr (cr c) 8)) (uint8 (Z.shiftr (cg c) 8))
         (uint8 (Z.shiftr (cb c) 8)) (uint8 (Z.shiftr (ca c) 8)).

(** [color.RGBA.RGBA()]: each channel [v] becomes [v | v << 8]. *)
Definition RGBA_RGBA (p : RGBA) : Color :=
  mkColor (Z.lor (RGBA_R p) (Z.shiftl (RGBA_R p) 8))
          (Z.lor (RGBA_G p) (Z.shiftl (RGBA_G p) 8))
          (Z.lor (RGBA_B p) (Z.shiftl (RGBA_B p) 8))
          (Z.lor (RGBA_A p) (Z.shiftl (RGBA_A p) 8)).

(** The colour a pixel copied by [draw.Draw] shows through [At]. *)
Definition drawn (c : Color) : Color := RGBA_RGBA (RGBA_of_Color c).

Definition transparent : Color := mkColor 0 0 0 0.

(** An [image.Image]: its [Bounds()] and its [At(x, y)]. *)
Record Image := mkImage { Bounds : Rectangle; At : Z -> Z -> Color }.

Definition Dx (img : Image) : Z := Rectangle_Dx (Bounds img).
Definition Dy (img : Image) : Z := Rectangle_Dy (Bounds img).

(** The images the decoders of [image/jpeg], [image/png] and
    [golang.org/x/image/webp] return have their origin at (0, 0). *)
Definition decoded_shape (img : Image) : Prop :=
  Min (Bounds img) = mkPoint 0 0 /\
  0 <= X (Max (Bounds img)) <= GoInt.int_max /\
  0 <= Y (Max (Bounds img)) <= GoInt.int_max.

(** [mul3NonNeg] of package [image]: the product, or -1 when an argument
    is negative or the product does not fit an [int]. *)
Definition mul3NonNeg (x y z : Z) : Z :=
  if (x <? 0) || (y <? 0) || (z <? 0) then -1
  else if 2 ^ 64 <=? x * y then -1
  else if 2 ^ 64 <=? x * y * z then -1
  else if GoInt.int_max <? x * y * z then -1
  else x * y * z.

(** [image.NewRGBA(r)]: a fresh all-zero image with bounds [r]; [None]
    stands for the panic on huge or negative dimensions. *)
Definition NewRGBA (r : Rectangle) : option Image :=
  if mul3NonNeg 4 (Rectangle_Dx r) (Rectangle_Dy r) <? 0 then None
  else Some (mkImage r (fun _ _ => transparent)).

(** [draw.Draw(dst, r, src, sp, draw.Src)]: [r] is clipped to [dst] and to
    the part of [src] lying under it once [sp] is aligned with [r.Min];
    the pixels of the clipped rectangle are replaced by those of [src]. *)
Definition draw_Draw (dst : Image) (r : Rectangle) (src : Image) (sp : Point)
  : Image :=
  let orig := Min r in
  let r1 := Rectangle_Intersect r (Bounds dst) in
  let r2 := Rectangle_Intersect r1 (Rectangle_Add (Bounds src) (Point_Sub orig sp)) in
  mkImage (Bounds dst)
    (fun x y =>
       if Point_In (mkPoint x y) r2
       then drawn (At src (GoInt.add (X sp) (GoInt.sub x (X orig)))
                          (GoInt.add (Y sp) (GoInt.sub y (Y orig))))
       else At dst x y).

(** ** Packages [path/filepath] and [strings] *)

(** The loop of [filepath.Ext], walking the path from its last byte:
    [seen] is the part already walked over. *)
Fixpoint Ext_scan (rev_path : list ascii) (seen : list ascii) : list ascii :=
  match rev_path with
  | [] => []
  | c :: rest =>
      if Ascii.eqb c "/"%char then []
      else if Ascii.eqb c "."%char then c :: seen
      else Ext_scan rest (c :: seen)
  end.

Definition filepath_Ext (path : string) : string :=
  string_of_list_ascii (Ext_scan (rev (list_ascii_of_string path)) []).

(** [strings.ToLower] on the ASCII letters.  A byte outside ASCII is left
    as it is: no rune outside ASCII lower-cases to one of the letters of
    the four extensions compared below, so the comparisons agree with Go's. *)
Definition lower_ascii (c : ascii) : ascii :=
  let n := nat_of_ascii c in
  if (65 <=? n)%nat && (n <=? 90)%nat then ascii_of_nat (n + 32) else c.

Fixpoint strings_ToLower (s : string) : string :=
  match s with
  | EmptyString => EmptyString
  | String c rest => String (lower_ascii c) (strings_ToLower rest)
  end.

Definition isImageFile (filename : string) : bool :=
  let ext := strings_ToLower (filepath_Ext filename) in
  String.eqb ext ".jpg"%string || String.eqb ext ".jpeg"%string ||
  String.eqb ext ".png"%string || String.eqb ext ".webp"%string.

(** ** Packages [io], [bytes], [archive/zip], [sort] and the decoders *)

Definition bytes := list byte.

(** An [io.Reader] as [io.ReadAll] observes it: the bytes it delivers and
    the error, if any, that ends the stream. *)
Record Reader := mkReader { delivered : bytes; failure : option string }.

Definition io_ReadAll (r : Reader) : bytes * option string :=
  (delivered r, failure r).

Definition bytes_NewReader (data : bytes) : Reader := mkReader data None.

(** A [*zip.File]: its [Name] and what [Open()] returns, an error or the
    reader of its contents. *)
Record File := mkFile { Name : string; Open : string + Reader }.

(** The less function handed to [sort.Slice]: Go compares strings byte
    by byte. *)
Definition less (a b : File) : bool := (Name a <? Name b)%string.

(** [sort.Slice] with [less]: some permutation of the slice in which no
    element is less than an earlier one (the sort is not stable). *)
Class Sorter := {
  sort_Slice : list File -> list File;
  sort_Slice_perm : forall l, Permutation l (sort_Slice l);
  sort_Slice_sorted :
    forall l, StronglySorted (fun a b => less b a = false) (sort_Slice l)
}.

(** [jpeg.Decode], [png.Decode] and [webp.Decode] applied to a
    [bytes.Reader]: [None] is a decoding error, and an image they return
    has its origin at (0, 0) and dimensions that are [int]s. *)
Class Codecs := {
  jpeg_Decode : bytes -> option Image;
  png_Decode : bytes -> option Image;
  webp_Decode : bytes -> option Image;
  jpeg_shape : forall data img, jpeg_Decode data = Some img -> decoded_shape img;
  png_shape : forall data img, png_Decode data = Some img -> decoded_shape img;
  webp_shape : forall data img, webp_Decode data = Some img -> decoded_shape img
}.

(** [png.CompressionLevel]. *)
Inductive CompressionLevel :=
| DefaultCompression | NoCompression | BestSpeed | BestCompression.

(** [png.Encoder.Encode] into a writer: the error it returns, or the bytes
    it has written. *)
Class Encoder := {
  png_Encode : CompressionLevel -> Image -> string + bytes
}.

(** The file system as [zip.OpenReader] sees it: an error, or the entries
    of the archive in the order of its central directory. *)
Definition Disk := string -> string + list File.

(** ** Errors, log lines and the monad of the pipeline *)

Inductive error :=
| ErrOpeningCBZ (cause : string)              (* "error opening CBZ file: %v" *)
| ErrOpeningFile (name cause : string)        (* "error opening file %s: %v" *)
| ErrReadingFile (name cause : string)        (* "error reading file %s: %v" *)
| ErrNoValidImages       (* "no valid images found with matching width ..." *)
| ErrReadingImageData (cause : string)        (* "error reading image data: %v" *)
| ErrUnsupportedFormat                        (* "unsupported image format" *)
| ErrEncode (cause : string).          (* the error of [Encoder.Encode] *)

(** The failures that section 7 of the specification lets terminate a
    request: [ArchiveOpenError], [NoValidPagesError] and [EncodeError]. *)
Definition terminal_in_spec (e : error) : bool :=
  match e with
  | ErrOpeningCBZ _ | ErrNoValidImages | ErrEncode _ => true
  | _ => false
  end.

Inductive LogLine :=
| LogDecodeError (name : string) (err : error)  (* "Error decoding file %s: %v" *)
| LogDecoded (name format : string)   (* "Successfully decoded %s as %s" *)
| LogSkip (name : string) (width commonWidth : Z).
                      (* "Skipping %s: width %d doesn't match common width %d" *)

Inductive outcome (T : Type) :=
| Ok (v : T)
| Err (e : error)
| Panic.
Arguments Ok {T} v.
Arguments Err {T} e.
Arguments Panic {T}.

(** A computation writes log lines and ends in a value, an error or a panic. *)
Definition M (T : Type) : Type := list LogLine * outcome T.

Definition ret {T} (v : T) : M T := ([], Ok v).
Definition fail {T} (e : error) : M T := ([], Err e).
Definition panic {T} : M T := ([], Panic).
Definition log_Printf (l : LogLine) : M unit := ([l], Ok tt).

Definition bind {T U} (m : M T) (k : T -> M U) : M U :=
  match m with
  | (w, Ok v) => let '(w', o) := k v in (w ++ w', o)
  | (w, Err e) => (w, Err e)
  | (w, Panic) => (w, Panic)
  end.

Notation "x <- m ;; k" := (bind m (fun x => k))
  (at level 61, m at next level, right associativity).
Notation "m ;;; k" := (bind m (fun _ => k))
  (at level 61, right associativity).

Definition result {T} (m : M T) : outcome T := snd m.
Definition logged {T} (m : M T) : list LogLine := fst m.

(** ** [main.go] *)

Inductive Format := JPEG | PNG | WebP.

Section Pipeline.

Context {sorter : Sorter} {codecs : Codecs} {encoder : Encoder}.
Variable disk : Disk.

(** [decodeImage].  The first component lists the decoders that were
    called, in the order of the calls. *)
Definition decodeImage (r : Reader) : list Format * (error + Image * string) :=
  let '(data, err) := io_ReadAll r in
  match err with
  | Some e => ([], inl (ErrReadingImageData e))
  | None =>
      match jpeg_Decode data with
      | Some img => ([JPEG], inr (img, "jpeg"%string))
      | None =>
          match png_Decode data with
          | Some img => ([JPEG; PNG], inr (img, "png"%string))
          | None =>
              match webp_Decode data with
              | Some img => ([JPEG; PNG; WebP], inr (img, "webp"%string))
              | None => ([JPEG; PNG; WebP], inl ErrUnsupportedFormat)
              end
          end
      end
  end.

(** The three variables of [CreateWebtoonStrip] that live across the
    iterations of its first loop. *)
Record Strip := mkStrip {
  images : list Image;
  totalHeight : Z;
  commonWidth : Z
}.

Definition empty_strip : Strip := mkStrip [] 0 0.

(** [commonWidth = width] where the loop body assigns it, then
    [images = append(images, img); totalHeight += img.Bounds().Dy()]. *)
Definition push (st : Strip) (width : Z) (img : Image) : Strip :=
  mkStrip (images st ++ [img]) (GoInt.add (totalHeight st) (Dy img)) width.

(** The body of [for _, file := range reader.File]; [continue] is the
    return of the unchanged strip. *)
Definition visit (st : Strip) (file : File) : M Strip :=
  if isImageFile (Name file) then
    match Open file with
    | inl err => fail (ErrOpeningFile (Name file) err)
    | inr rc =>
        let '(data, err) := io_ReadAll rc in
        match err with
        | Some e => fail (ErrReadingFile (Name file) e)
        | None =>
            match snd (decodeImage (bytes_NewReader data)) with
            | inl e =>
                log_Printf (LogDecodeError (Name file) e) ;;;
                ret st
            | inr (img, format) =>
                log_Printf (LogDecoded (Name file) format) ;;;
                let width := Dx img in
                if commonWidth st =? 0 then
                  ret (push st width img)
                else if negb (width =? commonWidth st) then
                  log_Printf (LogSkip (Name file) width (commonWidth st)) ;;;
                  ret st
                else
                  ret (push st (commonWidth st) img)
            end
        end
    end
  else ret st.

Fixpoint range_files (files : list File) (st : Strip) : M Strip :=
  match files with
  | [] => ret st
  | file :: rest => st' <- visit st file ;; range_files rest st'
  end.

(** The second loop: [for _, img := range images { draw.Draw(...) }]. *)
Fixpoint range_images (imgs : list Image) (commonWidth : Z)
    (finalImage : Image) (currentY : Z) : Image :=
  match imgs with
  | [] => finalImage
  | img :: rest =>
      let finalImage' :=
        draw_Draw finalImage
          (Rect 0 currentY commonWidth (GoInt.add currentY (Dy img)))
          img (mkPoint 0 0) in
      range_images rest commonWidth finalImage' (GoInt.add currentY (Dy img))
  end.

Definition CreateWebtoonStrip (cbzFilePath : string) : M Image :=
  match disk cbzFilePath with
  | inl err => fail (ErrOpeningCBZ err)
  | inr reader_File =>
      st <- range_files (sort_Slice reader_File) empty_strip ;;
      if (Z.of_nat (List.length (images st)) =? 0) then fail ErrNoValidImages
      else
        match NewRGBA (Rect 0 0 (commonWidth st) (totalHeight st)) with
        | None => panic
        | Some finalImage =>
            ret (range_images (images st) (commonWidth st) finalImage 0)
        end
  end.

Definition streamPNG (img : Image) : M bytes :=
  match png_Encode DefaultCompression img with
  | inl err => fail (ErrEncode err)
  | inr written => ret written
  end.

(** *** Observations on an archive entry, used to state the properties *)

(** The bytes [file.Open()] followed by [io.ReadAll] yields without error. *)
Definition contents (file : File) : option bytes :=
  match Open file with
  | inl _ => None
  | inr rc =>
      match failure rc with
      | Some _ => None
      | None => Some (delivered rc)
      end
  end.

(** A Candidate Entry whose bytes cannot be opened or read. *)
Definition unreadable (file : File) : bool :=
  isImageFile (Name file) &&
  match contents file with Some _ => false | None => true end.

(** The page of a Candidate Entry that decodes. *)
Definition decoded (file : File) : option Image :=
  if isImageFile (Name file) then
    match contents file with
    | Some data =>
        match snd (decodeImage (bytes_NewReader data)) with
        | inr (img, _) => Some img
        | inl _ => None
        end
    | None => None
    end
  else None.

(** A Candidate Entry whose bytes are read and rejected by every decoder. *)
Definition undecodable (file : File) : bool :=
  isImageFile (Name file) &&
  match contents file with
  | Some data =>
      match snd (decodeImage (bytes_NewReader data)) with
      | inr _ => false
      | inl _ => true
      end
  | None => false
  end.

(** The decoded pages of a list of entries, in the order of the list. *)
Fixpoint pages (files : list File) : list Image :=
  match files with
  | [] => []
  | file :: rest =>
      match decoded file with
      | Some img => img :: pages rest
      | None => pages rest
      end
  end.

Fixpoint rows (imgs : list Image) : Z :=
  match imgs with
  | [] => 0
  | img :: rest => Dy img + rows rest
  end.

(** The strip after the loop body has met the decoded page [img]. *)
Definition offer (st : Strip) (img : Image) : Strip :=
  if commonWidth st =? 0 then push st (Dx img) img
  else if Dx img =? commonWidth st then push st (commonWidth st) img
  else st.

(** The pixel buffer of a [w] by [h] RGBA image can be allocated: its
    length [4 * w * h], its stride and its height fit an [int]. *)
Definition allocatable (w h : Z) : Prop :=
  h <= GoInt.int_max /\ 4 * w <= GoInt.int_max /\ 4 * w * h <= GoInt.int_max.

(** The height the loop has counted is the sum of the heights it has
    accepted, up to wrap-around. *)
Definition counted (st : Strip) : Prop :=
  totalHeight st = GoInt.wrap (rows (images st)).

(** The loop takes [img] into the strip when it visits [file] in state [st]. *)
Definition accepts (st : Strip) (file : File) (img : Image) : Prop :=
  decoded file = Some img /\ (commonWidth st = 0 \/ Dx img = commonWidth st).

(** In the run over [sorted], the page [img] of entry [file] is accepted
    when [y] rows have been accepted before it. *)
Definition placed (sorted : list File) (file : File) (img : Image) (y : Z)
  : Prop :=
  exists before after st,
    sorted = before ++ file :: after /\
    result (range_files before empty_strip) = Ok st /\
    accepts st file img /\
    y = totalHeight st.

(** The rows [y0 .. y0 + Dy img - 1] of [strip] show [img], row by row. *)
Definition shows (strip : Image) (y0 : Z) (img : Image) : Prop :=
  forall x y, 0 <= x < Dx img -> 0 <= y < Dy img ->
    At strip x (y0 + y) = drawn (At img x y).

End Pipeline.

(** ** The compositor and the sniffer in the words of the specification *)

(** The Strip Compositor as section 4.3 of the specification words it:
    its two states and its transition on a decoded Raster.  The loop of
    [CreateWebtoonStrip] is compared with it below. *)
Inductive Compositor :=
| Uninitialized
| Established (width : Z) (accepted : list Image) (height : Z).

Definition compose (c : Compositor) (raster : Image) : Compositor :=
  match c with
  | Uninitialized => Established (Dx raster) [raster] (Dy raster)
  | Established w acc h =>
      if Dx raster =? w then Established w (acc ++ [raster]) (h + Dy raster)
      else c
  end.

(** The strip variables a compositor state stands for. *)
Definition strip_of (c : Compositor) : Strip :=
  match c with
  | Uninitialized => empty_strip
  | Established w acc h => mkStrip acc h w
  end.

(** The Format Sniffer as sections 4.2 and 9 of the specification word
    it: a fixed ordered list of tagged decoders is walked and the first
    success is taken; the walk records the decoders it has tried.
    [decodeImage] is compared with it below. *)
Fixpoint probe (decoders : list (Format * (bytes -> option Image)))
    (data : bytes) : list Format * option (Format * Image) :=
  match decoders with
  | [] => ([], None)
  | (tag, decode) :: rest =>
      match decode data with
      | Some img => ([tag], Some (tag, img))
      | None => let '(tried, r) := probe rest data in (tag :: tried, r)
      end
  end.

Definition format_name (f : Format) : string :=
  match f with
  | JPEG => "jpeg"%string
  | PNG => "png"%string
  | WebP => "webp"%string
  end.

(** ** A concrete sorter and concrete decoders *)

Module Toy.

Fixpoint insert (x : File) (l : list File) : list File :=
  match l with
  | [] => [x]
  | y :: rest => if less x y then x :: y :: rest else y :: insert x rest
  end.

Fixpoint isort (l : list File) : list File :=
  match l with
  | [] => []
  | x :: rest => insert x (isort rest)
  end.

Definition Z_of_byte (b : byte) : Z := Z.of_N (Byte.to_N b).

(** A [w] by [h] picture whose pixels record their coordinates. *)
Definition picture (w h shade : Z) : Image :=
  mkImage (mkRectangle (mkPoint 0 0) (mkPoint w h))
    (fun x y => mkColor (256 * shade) (256 * x) (256 * y) 65535).

(** A four-byte format: a tag, the width, the height, a shade. *)
Definition decode_tagged (tags : list byte) (data : bytes) : option Image :=
  match data with
  | t :: w :: h :: s :: _ =>
      if existsb (Byte.eqb t) tags
      then Some (picture (Z_of_byte w) (Z_of_byte h) (Z_of_byte s))
      else None
  | _ => None
  end.

Definition entry (name : string) (data : bytes) : File :=
  mkFile name (inr (bytes_NewReader data)).

Definition torn_entry (name : string) (data : bytes) : File :=
  mkFile name (inr (mkReader data (Some "zip: checksum error"%string))).

(** The one archive of a disk, stored as [comic.cbz]. *)
Definition disk_of (files : list File) : Disk :=
  fun path =>
    if String.eqb path "comic.cbz"%string then inr files
    else inl "open: no such file or directory"%string.

(** Two pages of width 2, stored out of name order. *)
Definition two_pages : list File :=
  [ entry "02.png" ["P"%byte; x02; x03; x09];
    entry "01.jpg" ["J"%byte; x02; x01; x07] ].

(** A page followed by a page whose bytes fail the checksum. *)
Definition torn_archive : list File :=
  [ entry "1.png" ["P"%byte; x01; x01; x00];
    torn_entry "2.png" ["P"%byte; x01; x01; x00] ].

(** An archive without any Candidate Entry. *)
Definition no_candidates : list File :=
  [ entry "notes.txt" ["P"%byte; x01; x01; x00];
    entry "cover.gif" ["J"%byte; x01; x01; x00];
    entry "png" ["P"%byte; x01; x01; x00] ].

(** A page of width 0 followed by a page of width 2. *)
Definition zero_first : list File :=
  [ entry "1.png" ["P"%byte; x00; x01; x00];
    entry "2.png" ["P"%byte; x02; x03; x00] ].

(** Pages of widths 1 and 2. *)
Definition two_widths : list File :=
  [ entry "1.png" ["P"%byte; x01; x01; x00];
    entry "2.png" ["P"%byte; x02; x03; x00] ].

(** Two pages of width 2 and an entry no decoder accepts. *)
Definition one_corrupt : list File :=
  [ entry "03.png" ["?"%byte; x02];
    entry "02.png" ["P"%byte; x02; x03; x09];
    entry "01.jpg" ["J"%byte; x02; x01; x07] ].

End Toy.

(** * Properties *)

(** ** Arithmetic of [int] *)

Lemma wrap_small z : GoInt.int_min <= z <= GoInt.int_max -> GoInt.wrap z = z.
Proof.
  unfold GoInt.wrap, GoInt.int_min, GoInt.int_max. intros H.
  rewrite Z.mod_small; lia.
Qed.

Lemma wrap_add_l a b : GoInt.wrap (GoInt.wrap a + b) = GoInt.wrap (a + b).
Proof.
  unfold GoInt.wrap. f_equal.
  replace ((a + 2 ^ 63) mod 2 ^ 64 - 2 ^ 63 + b + 2 ^ 63)
    with ((a + 2 ^ 63) mod 2 ^ 64 + b) by lia.
  rewrite Zplus_mod_idemp_l. f_equal. lia.
Qed.

Lemma add_small a b :
  GoInt.int_min <= a + b <= GoInt.int_max -> GoInt.add a b = a + b.
Proof. apply wrap_small. Qed.

Lemma sub_small a b :
  GoInt.int_min <= a - b <= GoInt.int_max -> GoInt.sub a b = a - b.
Proof. apply wrap_small. Qed.

Lemma int_max_pos : 0 < GoInt.int_max.
Proof. reflexivity. Qed.

Lemma int_min_neg : GoInt.int_min < 0.
Proof. reflexivity. Qed.

(** ** Decoded images *)

Lemma shape_Dx img :
  decoded_shape img -> Dx img = X (Max (Bounds img)) /\ 0 <= Dx img <= GoInt.int_max.
Proof.
  intros (Hmin & Hx & _). unfold Dx, Rectangle_Dx. rewrite Hmin. cbn [X].
  pose proof int_min_neg. rewrite sub_small; lia.
Qed.

Lemma shape_Dy img :
  decoded_shape img -> Dy img = Y (Max (Bounds img)) /\ 0 <= Dy img <= GoInt.int_max.
Proof.
  intros (Hmin & _ & Hy). unfold Dy, Rectangle_Dy. rewrite Hmin. cbn [Y].
  pose proof int_min_neg. rewrite sub_small; lia.
Qed.

Lemma rows_app l1 l2 : rows (l1 ++ l2) = rows l1 + rows l2.
Proof. induction l1 as [|i l1 IH]; cbn [rows app]; lia. Qed.

Lemma rows_nonneg l : Forall decoded_shape l -> 0 <= rows l.
Proof.
  induction 1 as [|i l Hi _ IH]; cbn [rows]; [lia|].
  destruct (shape_Dy i Hi); lia.
Qed.

(** ** The order of entry names *)

Lemma less_irrefl a : less a a = false.
Proof.
  unfold less, String.ltb.
  destruct (String.compare (Name a) (Name a)) eqn:E; auto.
  pose proof (String.compare_antisym (Name a) (Name a)) as H.
  rewrite E in H. discriminate.
Qed.

Lemma less_asym a b : less a b = true -> less b a = false.
Proof.
  unfold less, String.ltb. rewrite (String.compare_antisym (Name b) (Name a)).
  destruct (String.compare (Name a) (Name b)); cbn; congruence.
Qed.

Lemma less_trans a b c : less a b = true -> less b c = true -> less a c = true.
Proof.
  unfold less, String.ltb. intros Hab Hbc.
  destruct (String.compare (Name a) (Name b)) eqn:Eab; try discriminate.
  destruct (String.compare (Name b) (Name c)) eqn:Ebc; try discriminate.
  apply OrderedTypeEx.String_as_OT.cmp_lt in Eab, Ebc.
  pose proof (OrderedTypeEx.String_as_OT.lt_trans _ _ _ Eab Ebc) as Hac.
  apply OrderedTypeEx.String_as_OT.cmp_lt in Hac.
  unfold OrderedTypeEx.String_as_OT.cmp in Hac. now rewrite Hac.
Qed.

(** ** The insertion sort is a [sort.Slice] *)

Lemma insert_perm x l : Permutation (x :: l) (Toy.insert x l).
Proof.
  induction l as [|y l IH]; cbn [Toy.insert]; [reflexivity|].
  destruct (less x y); [reflexivity|].
  rewrite perm_swap. now constructor.
Qed.

Lemma isort_perm l : Permutation l (Toy.isort l).
Proof.
  induction l as [|x l IH]; cbn [Toy.isort]; [constructor|].
  rewrite <- insert_perm. now constructor.
Qed.

Lemma insert_sorted x l :
  StronglySorted (fun a b => less b a = false) l ->
  StronglySorted (fun a b => less b a = false) (Toy.insert x l).
Proof.
  induction 1 as [|y l Hl IH Hy]; cbn [Toy.insert].
  - repeat constructor.
  - destruct (less x y) eqn:Exy.
    + constructor; [now constructor|]. constructor; [now apply less_asym|].
      rewrite Forall_forall in *. intros z Hz.
      destruct (less z x) eqn:Ezx; [|reflexivity].
      rewrite <- (Hy z Hz). symmetry. eapply less_trans; eassumption.
    + constructor; [assumption|].
      rewrite Forall_forall in *. intros z Hz.
      apply (Permutation_in _ (Permutation_sym (insert_perm x l))) in Hz.
      destruct Hz as [<-|Hz]; auto.
Qed.

Lemma isort_sorted l : StronglySorted (fun a b => less b a = false) (Toy.isort l).
Proof.
  induction l as [|x l IH]; cbn [Toy.isort]; [constructor|].
  now apply insert_sorted.
Qed.

Definition insertion_sorter : Sorter :=
  {| sort_Slice := Toy.isort;
     sort_Slice_perm := isort_perm;
     sort_Slice_sorted := isort_sorted |}.

(** ** The tagged decoders are decoders *)

Lemma decode_tagged_shape tags data img :
  Toy.decode_tagged tags data = Some img -> decoded_shape img.
Proof.
  unfold Toy.decode_tagged.
  destruct data as [|t [|w [|h [|s rest]]]]; try discriminate.
  destruct (existsb (Byte.eqb t) tags); [|discriminate].
  intros [= <-]. unfold decoded_shape, Toy.picture, Toy.Z_of_byte. cbn.
  pose proof (Byte.to_N_bounded w). pose proof (Byte.to_N_bounded h).
  unfold GoInt.int_max. repeat split; lia.
Qed.

(** "J" is accepted as JPEG, "P" as PNG, "W" as WebP, and "B" by both the
    JPEG and the PNG decoder. *)
Definition tagged_codecs : Codecs :=
  {| jpeg_Decode := Toy.decode_tagged ["J"%byte; "B"%byte];
     png_Decode := Toy.decode_tagged ["P"%byte; "B"%byte];
     webp_Decode := Toy.decode_tagged ["W"%byte];
     jpeg_shape := decode_tagged_shape _;
     png_shape := decode_tagged_shape _;
     webp_shape := decode_tagged_shape _ |}.


(** ** The monad *)

Lemma result_bind {T U} (m : M T) (k : T -> M U) :
  result (bind m k) =
  match result m with
  | Ok v => result (k v)
  | Err e => Err e
  | Panic => Panic
  end.
Proof.
  destruct m as [w [v|e|]]; cbn; auto. destruct (k v); reflexivity.
Qed.

(** ** The loop over the entries *)

Section Loop.

Context {codecs : Codecs}.

Lemma decodeImage_shape data img fmt :
  snd (decodeImage (bytes_NewReader data)) = inr (img, fmt) -> decoded_shape img.
Proof.
  unfold decodeImage, bytes_NewReader, io_ReadAll. cbn [delivered failure].
  destruct (jpeg_Decode data) eqn:Ej.
  { intros [= <- _]. eapply jpeg_shape; eassumption. }
  destruct (png_Decode data) eqn:Ep.
  { intros [= <- _]. eapply png_shape; eassumption. }
  destruct (webp_Decode data) eqn:Ew; [|discriminate].
  intros [= <- _]. eapply webp_shape; eassumption.
Qed.

Lemma decoded_shape_of file img : decoded file = Some img -> decoded_shape img.
Proof.
  unfold decoded. destruct (isImageFile (Name file)); [|discriminate].
  destruct (contents file) as [data|]; [|discriminate].
  destruct (snd (decodeImage (bytes_NewReader data))) as [e|[i f]] eqn:E;
    [discriminate|].
  intros [= <-]. eapply decodeImage_shape; eassumption.
Qed.

Lemma pages_shape l : Forall decoded_shape (pages l).
Proof.
  induction l as [|f l IH]; cbn [pages]; [constructor|].
  destruct (decoded f) eqn:E; auto. constructor; auto.
  eapply decoded_shape_of; eassumption.
Qed.

Lemma pages_app l1 l2 : pages (l1 ++ l2) = pages l1 ++ pages l2.
Proof.
  induction l1 as [|f l1 IH]; cbn [pages app]; auto.
  destruct (decoded f); cbn [app]; congruence.
Qed.

Lemma visit_ignored st file :
  isImageFile (Name file) = false -> visit st file = ret st.
Proof. unfold visit. now intros ->. Qed.

Lemma visit_unreadable st file :
  unreadable file = true ->
  exists cause,
    visit st file = fail (ErrOpeningFile (Name file) cause) /\ Open file = inl cause \/
    visit st file = fail (ErrReadingFile (Name file) cause) /\
    exists rc, Open file = inr rc /\ failure rc = Some cause.
Proof.
  unfold unreadable, contents, visit, io_ReadAll.
  destruct (isImageFile (Name file)); [|discriminate].
  destruct (Open file) as [c|rc]; [intros _; exists c; left; split; reflexivity|].
  destruct (failure rc) as [c|] eqn:Ef; [|discriminate].
  intros _. exists c. right. split; [reflexivity|]. exists rc. now split.
Qed.

Lemma visit_undecodable st file :
  undecodable file = true -> result (visit st file) = Ok st.
Proof.
  unfold undecodable, contents, visit, io_ReadAll.
  destruct (isImageFile (Name file)); [|discriminate].
  destruct (Open file) as [c|rc]; [discriminate|].
  destruct (failure rc) as [c|]; [discriminate|].
  destruct (snd (decodeImage (bytes_NewReader (delivered rc)))) as [e|[i f]];
    [reflexivity|discriminate].
Qed.

Lemma visit_decoded st file img :
  decoded file = Some img -> result (visit st file) = Ok (offer st img).
Proof.
  unfold decoded, contents, visit, io_ReadAll, offer.
  destruct (isImageFile (Name file)); [|discriminate].
  destruct (Open file) as [c|rc]; [discriminate|].
  destruct (failure rc) as [c|]; [discriminate|].
  destruct (snd (decodeImage (bytes_NewReader (delivered rc)))) as [e|[i f]];
    [discriminate|].
  intros [= ->].
  destruct (commonWidth st =? 0); [reflexivity|].
  destruct (Dx img =? commonWidth st); reflexivity.
Qed.

(** Every entry is ignored, unreadable, undecodable or a page. *)
Lemma entry_cases file :
  isImageFile (Name file) = false \/ unreadable file = true \/
  undecodable file = true \/ exists img, decoded file = Some img.
Proof.
  unfold unreadable, undecodable, decoded.
  destruct (isImageFile (Name file)); auto. right.
  destruct (contents file) as [data|]; auto. right.
  destruct (snd (decodeImage (bytes_NewReader data))) as [e|[i f]]; eauto.
Qed.

Lemma decoded_readable file img :
  decoded file = Some img -> unreadable file = false.
Proof.
  unfold decoded, unreadable. destruct (isImageFile (Name file)); auto.
  destruct (contents file); [reflexivity|discriminate].
Qed.

Lemma visit_readable st file :
  unreadable file = false ->
  result (visit st file) =
  Ok (match decoded file with Some img => offer st img | None => st end).
Proof.
  intros Hr. destruct (entry_cases file) as [H|[H|[H|[img H]]]].
  - rewrite visit_ignored by assumption. unfold decoded. now rewrite H.
  - congruence.
  - rewrite visit_undecodable by assumption.
    unfold undecodable in H. unfold decoded.
    destruct (isImageFile (Name file)); auto.
    destruct (contents file); auto.
    destruct (snd (decodeImage (bytes_NewReader b))) as [e|[i f]]; auto.
    discriminate.
  - rewrite H. now apply visit_decoded.
Qed.

Lemma range_files_app l1 l2 st :
  result (range_files (l1 ++ l2) st) =
  match result (range_files l1 st) with
  | Ok st' => result (range_files l2 st')
  | Err e => Err e
  | Panic => Panic
  end.
Proof.
  revert st. induction l1 as [|f l1 IH]; intros st; cbn [range_files app].
  - reflexivity.
  - rewrite !result_bind. destruct (result (visit st f)); auto.
Qed.

Lemma range_files_readable l st :
  Forall (fun f => unreadable f = false) l ->
  result (range_files l st) = Ok (fold_left offer (pages l) st).
Proof.
  intros H. revert st. induction H as [|f l Hf _ IH]; intros st.
  - reflexivity.
  - cbn [range_files pages]. rewrite result_bind, visit_readable by assumption.
    rewrite IH. destruct (decoded f); reflexivity.
Qed.

End Loop.

(** ** The strip variables along the loop *)

Lemma counted_empty : counted empty_strip.
Proof. reflexivity. Qed.

Lemma counted_push st w img : counted st -> counted (push st w img).
Proof.
  unfold counted, push. cbn [totalHeight images]. intros ->.
  unfold GoInt.add. rewrite wrap_add_l, rows_app. cbn [rows]. f_equal. lia.
Qed.

Lemma counted_offer st img : counted st -> counted (offer st img).
Proof.
  unfold offer. intros H.
  destruct (commonWidth st =? 0); [now apply counted_push|].
  destruct (Dx img =? commonWidth st); [now apply counted_push|assumption].
Qed.

Lemma counted_fold imgs st : counted st -> counted (fold_left offer imgs st).
Proof.
  revert st. induction imgs as [|i imgs IH]; intros st H; cbn [fold_left]; auto.
  apply IH. now apply counted_offer.
Qed.

(** Pages are only ever appended, and only pages that were offered. *)
Lemma fold_offer_grows imgs st :
  Forall decoded_shape imgs ->
  exists extra,
    images (fold_left offer imgs st) = images st ++ extra /\
    Forall decoded_shape extra /\ rows extra <= rows imgs /\
    (forall i, In i extra -> In i imgs).
Proof.
  intros H. revert st. induction H as [|i imgs Hi Himgs IH]; intros st.
  - exists []. cbn. rewrite app_nil_r. repeat split; auto; lia.
  - cbn [fold_left]. destruct (IH (offer st i)) as (extra & E & Hs & Hr & Hin).
    destruct (shape_Dy i Hi) as [_ Hh].
    assert (images (offer st i) = images st ++ [i] \/
            images (offer st i) = images st) as [E'|E'].
    { unfold offer. destruct (commonWidth st =? 0); [now left|].
      destruct (Dx i =? commonWidth st); [now left|now right]. }
    + exists (i :: extra). rewrite E, E', <- app_assoc. cbn [app rows].
      repeat split; auto; [lia|]. intros j [<-|Hj]; [now left|right; auto].
    + exists extra. rewrite E, E'. cbn [rows].
      repeat split; auto; [lia|]. intros j Hj. right. auto.
Qed.

(** Once the common width is not 0 it is fixed, and exactly the pages of
    that width are appended. *)
Lemma fold_offer_fixed imgs st :
  commonWidth st <> 0 ->
  images (fold_left offer imgs st) =
    images st ++ filter (fun i => Dx i =? commonWidth st) imgs /\
  commonWidth (fold_left offer imgs st) = commonWidth st.
Proof.
  intros Hw. revert st Hw. induction imgs as [|i imgs IH]; intros st Hw.
  - cbn. now rewrite app_nil_r.
  - cbn [fold_left filter]. unfold offer at 2 4.
    destruct (Z.eqb_spec (commonWidth st) 0) as [|_]; [contradiction|].
    destruct (Dx i =? commonWidth st).
    + destruct (IH (push st (commonWidth st) i) Hw) as [E1 E2].
      rewrite E1, E2. cbn [images commonWidth push]. now rewrite <- app_assoc.
    + now apply IH.
Qed.

(** Pages of one width are all appended. *)
Lemma fold_offer_uniform W imgs st :
  Forall (fun i => Dx i = W) imgs ->
  commonWidth st = 0 \/ commonWidth st = W ->
  images (fold_left offer imgs st) = images st ++ imgs /\
  commonWidth (fold_left offer imgs st) =
    match imgs with [] => commonWidth st | _ => W end.
Proof.
  intros H. revert st. induction H as [|i imgs Hi _ IH]; intros st Hw.
  - cbn. now rewrite app_nil_r.
  - cbn [fold_left].
    assert (offer st i = push st W i) as ->.
    { unfold offer. rewrite Hi.
      destruct (Z.eqb_spec (commonWidth st) 0); [reflexivity|].
      destruct Hw as [|Hw]; [contradiction|]. rewrite Hw, Z.eqb_refl.
      reflexivity. }
    destruct (IH (push st W i)) as [E1 E2]; [now right|].
    rewrite E1, E2. cbn [images commonWidth push]. rewrite <- app_assoc.
    split; [reflexivity|]. now destruct imgs.
Qed.

(** ** Drawing *)

Ltac test_by spec p q := destruct (spec p q).

Ltac split_tests :=
  repeat match goal with
    | |- context [?p <? ?q] => test_by Z.ltb_spec p q
    | |- context [?p <=? ?q] => test_by Z.leb_spec p q
    end;
  cbn [andb orb negb Min Max X Y ZR] in *.

Lemma Point_In_Intersect p r s :
  Point_In p (Rectangle_Intersect r s) = Point_In p r && Point_In p s.
Proof.
  destruct p as [x y], r as [[rx0 ry0] [rx1 ry1]], s as [[sx0 sy0] [sx1 sy1]].
  unfold Rectangle_Intersect, Rectangle_Empty, Point_In. cbn [Min Max X Y].
  destruct ((Z.min rx1 sx1 <=? Z.max rx0 sx0) || (Z.min ry1 sy1 <=? Z.max ry0 sy0))
    eqn:E; cbn [Min Max X Y ZR].
  - apply orb_true_iff in E. rewrite !Z.leb_le in E.
    split_tests; try reflexivity; lia.
  - apply orb_false_iff in E. rewrite !Z.leb_gt in E.
    split_tests; try reflexivity; lia.
Qed.

Lemma Rect_ordered x0 y0 x1 y1 :
  x0 <= x1 -> y0 <= y1 ->
  Rect x0 y0 x1 y1 = mkRectangle (mkPoint x0 y0) (mkPoint x1 y1).
Proof.
  intros Hx Hy. unfold Rect.
  destruct (Z.ltb_spec x1 x0); [lia|]. destruct (Z.ltb_spec y1 y0); [lia|].
  reflexivity.
Qed.

Section Drawing.

Variables (W H : Z) (dst : Image).
Hypothesis dst_bounds : Bounds dst = mkRectangle (mkPoint 0 0) (mkPoint W H).
Hypothesis W_range : 0 <= W <= GoInt.int_max.
Hypothesis H_range : H <= GoInt.int_max.

(** One call of [draw.Draw] in the second loop copies the page, clipped to
    the width of the strip, and leaves every other pixel as it was. *)
Lemma draw_page_At src y0 x y :
  decoded_shape src -> 0 <= y0 -> y0 + Dy src <= H ->
  At (draw_Draw dst (Rect 0 y0 W (GoInt.add y0 (Dy src))) src (mkPoint 0 0)) x y =
  if (0 <=? x) && (x <? Z.min W (Dx src)) && (y0 <=? y) && (y <? y0 + Dy src)
  then drawn (At src x (y - y0))
  else At dst x y.
Proof.
  intros Hs Hy0 Hfit.
  destruct (shape_Dx src Hs) as [Ex Hx], (shape_Dy src Hs) as [Ey Hy].
  destruct Hs as (Hmin & _ & _).
  pose proof int_min_neg as Hneg.
  rewrite add_small by lia. rewrite Rect_ordered by lia.
  unfold draw_Draw. cbn [At Min Max X Y]. rewrite !Point_In_Intersect.
  unfold Rectangle_Add, Point_Add, Point_Sub. rewrite dst_bounds, Hmin.
  cbn [X Y]. rewrite <- Ex, <- Ey.
  assert (GoInt.sub 0 0 = 0) as -> by (rewrite sub_small; lia).
  assert (GoInt.sub y0 0 = y0) as -> by (rewrite sub_small; lia).
  assert (GoInt.add 0 0 = 0) as -> by (rewrite add_small; lia).
  assert (GoInt.add 0 y0 = y0) as -> by (rewrite add_small; lia).
  assert (GoInt.add (Dx src) 0 = Dx src) as -> by (rewrite add_small; lia).
  assert (GoInt.add (Dy src) y0 = y0 + Dy src) as -> by (rewrite add_small; lia).
  unfold Point_In. cbn [Min Max X Y].
  destruct ((0 <=? x) && (x <? Z.min W (Dx src)) && (y0 <=? y) && (y <? y0 + Dy src))
    eqn:E.
  - rewrite !andb_true_iff, !Z.leb_le, !Z.ltb_lt in E.
    assert (GoInt.sub x 0 = x) as -> by (rewrite sub_small; lia).
    assert (GoInt.sub y y0 = y - y0) as -> by (rewrite sub_small; lia).
    assert (GoInt.add 0 x = x) as -> by (rewrite add_small; lia).
    assert (GoInt.add 0 (y - y0) = y - y0) as -> by (rewrite add_small; lia).
    split_tests; try reflexivity; lia.
  - assert (((0 <=? x) && (x <? W) && (y0 <=? y) && (y <? y0 + Dy src) &&
             ((0 <=? x) && (x <? W) && (0 <=? y) && (y <? H)) &&
             ((0 <=? x) && (x <? Dx src) && (y0 <=? y) && (y <? y0 + Dy src)))
            = false) as ->; [|reflexivity].
    revert E. split_tests; intros E; try reflexivity; try discriminate; lia.
Qed.

Lemma draw_Draw_Bounds r src sp : Bounds (draw_Draw dst r src sp) = Bounds dst.
Proof. reflexivity. Qed.

End Drawing.

Lemma range_images_Bounds imgs W dst y :
  Bounds (range_images imgs W dst y) = Bounds dst.
Proof.
  revert dst y. induction imgs as [|i imgs IH]; intros dst y; cbn [range_images].
  - reflexivity.
  - now rewrite IH.
Qed.

Section Stacking.

Variables W H : Z.
Hypothesis W_range : 0 <= W <= GoInt.int_max.
Hypothesis H_range : H <= GoInt.int_max.

Let canvas (dst : Image) : Prop :=
  Bounds dst = mkRectangle (mkPoint 0 0) (mkPoint W H).

(** The second loop never writes above the row it starts at. *)
Lemma range_images_above imgs :
  Forall decoded_shape imgs ->
  forall dst y0, canvas dst -> 0 <= y0 -> y0 + rows imgs <= H ->
  forall x y, y < y0 -> At (range_images imgs W dst y0) x y = At dst x y.
Proof.
  induction 1 as [|i imgs Hi Himgs IH]; intros dst y0 Hc Hy0 Hfit x y Hy.
  - reflexivity.
  - cbn [range_images rows] in *.
    destruct (shape_Dy i Hi) as [_ Hh]. pose proof int_min_neg.
    pose proof (rows_nonneg imgs Himgs).
    rewrite (add_small y0 (Dy i)) by lia.
    rewrite IH by (try exact Hc; lia).
    rewrite <- (add_small y0 (Dy i)) by lia.
    rewrite (draw_page_At W H dst Hc W_range H_range) by (auto; lia).
    destruct (Z.leb_spec y0 y); [lia|]. now rewrite !andb_false_r.
Qed.

(** Each page of the list is shown [rows pre] rows below the start, where
    [pre] are the pages before it. *)
Lemma range_images_shows pre img post :
  Forall decoded_shape (pre ++ img :: post) ->
  forall dst y0, canvas dst -> 0 <= y0 ->
    y0 + rows (pre ++ img :: post) <= H ->
  forall x y, 0 <= x < Dx img -> x < W -> 0 <= y < Dy img ->
    At (range_images (pre ++ img :: post) W dst y0) x (y0 + rows pre + y) =
    drawn (At img x y).
Proof.
  induction pre as [|p pre IH]; intros Hs dst y0 Hc Hy0 Hfit x y Hx HxW Hy.
  - cbn [app rows range_images] in *.
    apply Forall_cons_iff in Hs. destruct Hs as [Hi Hpost].
    destruct (shape_Dy img Hi) as [_ Hh]. pose proof int_min_neg.
    pose proof (rows_nonneg post Hpost).
    rewrite (add_small y0 (Dy img)) by lia.
    rewrite (range_images_above post Hpost) by (try exact Hc; lia).
    rewrite <- (add_small y0 (Dy img)) by lia.
    rewrite (draw_page_At W H dst Hc W_range H_range) by (auto; lia).
    replace (y0 + 0 + y - y0) with y by lia.
    destruct (Z.leb_spec 0 x); [|lia].
    destruct (Z.ltb_spec x (Z.min W (Dx img))); [|lia].
    destruct (Z.leb_spec y0 (y0 + 0 + y)); [|lia].
    destruct (Z.ltb_spec (y0 + 0 + y) (y0 + Dy img)); [|lia].
    reflexivity.
  - cbn [app rows range_images] in *.
    apply Forall_cons_iff in Hs. destruct Hs as [Hp Hrest].
    destruct (shape_Dy p Hp) as [_ Hh]. pose proof int_min_neg.
    assert (0 <= rows (pre ++ img :: post)) by now apply rows_nonneg.
    rewrite (add_small y0 (Dy p)) by lia.
    replace (y0 + (Dy p + rows pre) + y) with (y0 + Dy p + rows pre + y) by lia.
    apply IH; auto; try exact Hc; lia.
Qed.

End Stacking.

(** ** From the strip variables to the strip *)

Lemma NewRGBA_fits w h :
  0 <= w -> 0 <= h -> allocatable w h ->
  NewRGBA (Rect 0 0 w h) =
  Some (mkImage (mkRectangle (mkPoint 0 0) (mkPoint w h)) (fun _ _ => transparent)).
Proof.
  intros Hw Hh (Hh' & Hs & Hp). pose proof int_min_neg.
  rewrite Rect_ordered by lia.
  unfold NewRGBA, Rectangle_Dx, Rectangle_Dy. cbn [Min Max X Y].
  rewrite !sub_small by lia. replace (w - 0) with w by lia.
  replace (h - 0) with h by lia.
  unfold mul3NonNeg. unfold GoInt.int_max in *.
  destruct (Z.ltb_spec 4 0); [lia|]. destruct (Z.ltb_spec w 0); [lia|].
  destruct (Z.ltb_spec h 0); [lia|]. cbn [orb].
  destruct (Z.leb_spec (2 ^ 64) (4 * w)); [lia|].
  destruct (Z.leb_spec (2 ^ 64) (4 * w * h)); [lia|].
  destruct (Z.ltb_spec (2 ^ 63 - 1) (4 * w * h)); [lia|].
  destruct (Z.ltb_spec (4 * w * h) 0); [nia|]. reflexivity.
Qed.

Lemma width_offer st img :
  decoded_shape img -> 0 <= commonWidth st <= GoInt.int_max ->
  0 <= commonWidth (offer st img) <= GoInt.int_max.
Proof.
  intros Hs Hw. destruct (shape_Dx img Hs) as [_ Hx]. unfold offer.
  destruct (commonWidth st =? 0); [exact Hx|].
  destruct (Dx img =? commonWidth st); exact Hw.
Qed.

Lemma width_fold imgs st :
  Forall decoded_shape imgs -> 0 <= commonWidth st <= GoInt.int_max ->
  0 <= commonWidth (fold_left offer imgs st) <= GoInt.int_max.
Proof.
  intros H. revert st. induction H as [|i imgs Hi _ IH]; intros st Hw; auto.
  cbn [fold_left]. apply IH. now apply width_offer.
Qed.

(** What the tail of [CreateWebtoonStrip] makes of the strip variables:
    an image as wide as the common width and as high as the accepted
    pages together, showing each of them below those before it. *)
Lemma strip_shape st blank :
  counted st -> Forall decoded_shape (images st) ->
  0 <= commonWidth st <= GoInt.int_max ->
  rows (images st) <= GoInt.int_max ->
  NewRGBA (Rect 0 0 (commonWidth st) (totalHeight st)) = Some blank ->
  Dx (range_images (images st) (commonWidth st) blank 0) = commonWidth st /\
  Dy (range_images (images st) (commonWidth st) blank 0) = rows (images st) /\
  forall pre img post, images st = pre ++ img :: post ->
    forall x y, 0 <= x < Dx img -> x < commonWidth st -> 0 <= y < Dy img ->
      At (range_images (images st) (commonWidth st) blank 0) x (rows pre + y) =
      drawn (At img x y).
Proof.
  intros Hc Hs Hw Hh. pose proof (rows_nonneg _ Hs) as Hr.
  pose proof int_min_neg.
  rewrite Hc, wrap_small, Rect_ordered by lia.
  unfold NewRGBA. destruct (mul3NonNeg _ _ _ <? 0); [discriminate|].
  intros [= <-].
  unfold Dx, Dy. rewrite range_images_Bounds. cbn [Bounds].
  unfold Rectangle_Dx, Rectangle_Dy. cbn [Min Max X Y].
  rewrite !sub_small by lia. repeat split; try lia.
  intros pre img post E x y Hx HxW Hy. rewrite E in *.
  replace (rows pre + y) with (0 + rows pre + y) by lia.
  apply (range_images_shows (commonWidth st) (rows (pre ++ img :: post)));
    auto; try reflexivity; lia.
Qed.

Lemma strip_built st :
  counted st -> Forall decoded_shape (images st) ->
  0 <= commonWidth st <= GoInt.int_max ->
  allocatable (commonWidth st) (rows (images st)) ->
  exists blank,
    NewRGBA (Rect 0 0 (commonWidth st) (totalHeight st)) = Some blank /\
    Dx (range_images (images st) (commonWidth st) blank 0) = commonWidth st /\
    Dy (range_images (images st) (commonWidth st) blank 0) = rows (images st) /\
    forall pre img post, images st = pre ++ img :: post ->
      forall x y, 0 <= x < Dx img -> x < commonWidth st -> 0 <= y < Dy img ->
        At (range_images (images st) (commonWidth st) blank 0) x (rows pre + y) =
        drawn (At img x y).
Proof.
  intros Hc Hs Hw Ha. pose proof (rows_nonneg _ Hs) as Hr.
  pose proof int_min_neg. pose proof Ha as (Hh & _ & _).
  eexists. split.
  - rewrite Hc, wrap_small by lia. apply NewRGBA_fits; auto; lia.
  - apply strip_shape; auto.
    rewrite Hc, wrap_small by lia. apply NewRGBA_fits; auto; lia.
Qed.

Section Sorted.

Context {sorter : Sorter} {codecs : Codecs}.

Lemma CreateWebtoonStrip_unfold disk path :
  result (CreateWebtoonStrip disk path) =
  match disk path with
  | inl cause => Err (ErrOpeningCBZ cause)
  | inr files =>
      match result (range_files (sort_Slice files) empty_strip) with
      | Ok st =>
          match images st with
          | [] => Err ErrNoValidImages
          | _ :: _ =>
              match NewRGBA (Rect 0 0 (commonWidth st) (totalHeight st)) with
              | None => Panic
              | Some blank =>
                  Ok (range_images (images st) (commonWidth st) blank 0)
              end
          end
      | Err e => Err e
      | Panic => Panic
      end
  end.
Proof.
  unfold CreateWebtoonStrip. destruct (disk path) as [c|files]; [reflexivity|].
  rewrite result_bind.
  destruct (result (range_files (sort_Slice files) empty_strip)) as [st| |];
    try reflexivity.
  destruct (images st) as [|i l]; [reflexivity|]. cbn [List.length].
  destruct (Z.eqb_spec (Z.of_nat (S (List.length l))) 0); [lia|].
  destruct (NewRGBA _); reflexivity.
Qed.

Lemma pages_perm l l' : Permutation l l' -> Permutation (pages l) (pages l').
Proof.
  induction 1 as [|f l l' _ IH|f g l|l l' l'' _ IH1 _ IH2]; cbn [pages].
  - constructor.
  - destruct (decoded f); auto.
  - destruct (decoded f), (decoded g); auto using Permutation_refl, perm_swap.
  - now rewrite IH1.
Qed.

Lemma rows_perm l l' : Permutation l l' -> rows l = rows l'.
Proof. induction 1; cbn [rows]; lia. Qed.

Lemma unreadable_perm l l' :
  Permutation l l' ->
  Forall (fun f => unreadable f = false) l ->
  Forall (fun f => unreadable f = false) l'.
Proof. intros P H. rewrite Forall_forall in *. intros f Hf. apply H. eapply Permutation_in; [symmetry|]; eassumption. Qed.

Lemma range_files_Ok_readable l st st' :
  result (range_files l st) = Ok st' ->
  Forall (fun f => unreadable f = false) l.
Proof.
  revert st. induction l as [|f l IH]; intros st; [constructor|].
  cbn [range_files]. rewrite result_bind.
  destruct (unreadable f) eqn:E.
  - destruct (visit_unreadable st f E) as (c & [[-> _]|[-> _]]); discriminate.
  - rewrite visit_readable by assumption. intros H. constructor; eauto.
Qed.

Lemma range_files_Ok l st st' :
  result (range_files l st) = Ok st' -> st' = fold_left offer (pages l) st.
Proof.
  intros H. pose proof (range_files_Ok_readable _ _ _ H) as Hr.
  rewrite range_files_readable in H by assumption. congruence.
Qed.

(** In a sorted list an entry with the smaller name stands first. *)
Lemma sorted_split_order bA a aA bB b aB :
  StronglySorted (fun x y => less y x = false) (bA ++ a :: aA) ->
  bA ++ a :: aA = bB ++ b :: aB ->
  less a b = true ->
  exists mid, bB = bA ++ a :: mid.
Proof.
  revert bB. induction bA as [|x bA IH]; intros bB Hs E Hab.
  - destruct bB as [|x' bB]; cbn [app] in E.
    + injection E as -> _. rewrite less_irrefl in Hab. discriminate.
    + injection E as -> _. now exists bB.
  - cbn [app] in *. inversion Hs as [|? ? Htail Hx]; subst.
    destruct bB as [|x' bB]; cbn [app] in E.
    + injection E as -> _. rewrite Forall_forall in Hx.
      rewrite (Hx a) in Hab; [discriminate|]. apply in_elt.
    + injection E as -> E. destruct (IH bB Htail E Hab) as [mid ->].
      now exists mid.
Qed.

(** A page the loop accepts is shown in the strip, [y] rows down, where
    [y] is the height counted when it is accepted. *)
Lemma accepted_page_shown before file after img st strip blank :
  Forall (fun f => unreadable f = false) (before ++ file :: after) ->
  rows (pages (before ++ file :: after)) <= GoInt.int_max ->
  accepts (fold_left offer (pages before) empty_strip) file img ->
  st = fold_left offer (pages (before ++ file :: after)) empty_strip ->
  NewRGBA (Rect 0 0 (commonWidth st) (totalHeight st)) = Some blank ->
  strip = range_images (images st) (commonWidth st) blank 0 ->
  let y := totalHeight (fold_left offer (pages before) empty_strip) in
  y = rows (images (fold_left offer (pages before) empty_strip)) /\
  0 <= y /\ y + Dy img <= Dy strip /\ shows strip y img.
Proof.
  intros Hread Hrows [Hdec Hacc] Est Hnew Estrip y. subst y.
  set (st0 := fold_left offer (pages before) empty_strip) in *.
  assert (offer st0 img = push st0 (Dx img) img) as Hpush.
  { unfold offer. destruct (Z.eqb_spec (commonWidth st0) 0); [reflexivity|].
    destruct Hacc as [|Hacc]; [contradiction|].
    rewrite Hacc, Z.eqb_refl. reflexivity. }
  assert (st = fold_left offer (pages after) (push st0 (Dx img) img)) as Est'.
  { rewrite Est, pages_app. cbn [pages]. rewrite Hdec, fold_left_app.
    cbn [fold_left]. fold st0. now rewrite Hpush. }
  pose proof (pages_shape (before ++ file :: after)) as Hshape.
  destruct (fold_offer_grows _ empty_strip Hshape) as (all & Eall & Hall & Hle & _).
  rewrite <- Est in Eall. cbn [images empty_strip app] in Eall.
  destruct (fold_offer_grows _ (push st0 (Dx img) img) (pages_shape after))
    as (post & Epost & Hpost & _ & _).
  rewrite <- Est' in Epost. cbn [images push] in Epost.
  rewrite <- app_assoc in Epost. cbn [app] in Epost.
  assert (counted st) as Hc by (rewrite Est; apply counted_fold, counted_empty).
  assert (counted st0) as Hc0 by (apply counted_fold, counted_empty).
  assert (Forall decoded_shape (images st)) as Hs by now rewrite Eall.
  assert (0 <= commonWidth st <= GoInt.int_max) as Hw.
  { rewrite Est. apply width_fold; auto. cbn. pose proof int_max_pos. lia. }
  assert (rows (images st) <= GoInt.int_max) as Hh by (rewrite Eall; lia).
  destruct (strip_shape st blank Hc Hs Hw Hh Hnew) as (_ & HDy & Hshow).
  rewrite <- Estrip in HDy, Hshow.
  rewrite Epost in Hs. apply Forall_app in Hs. destruct Hs as [Hs0 Hs1].
  apply Forall_cons_iff in Hs1. destruct Hs1 as [Himg Hs1].
  pose proof (rows_nonneg _ Hs0). pose proof (rows_nonneg _ Hs1).
  destruct (shape_Dy img Himg) as [_ HhI]. pose proof int_min_neg.
  assert (rows (images st) = rows (images st0) + (Dy img + rows post)) as Er
    by (rewrite Epost, rows_app; reflexivity).
  assert (totalHeight st0 = rows (images st0)) as Ey
    by (rewrite Hc0, wrap_small; lia).
  rewrite Ey. repeat split; try lia.
  intros x y0 Hx Hy0. apply (Hshow _ _ _ Epost); auto.
  assert (commonWidth st = Dx img) as ->; [|lia].
  rewrite Est'. apply fold_offer_fixed. cbn [commonWidth push]. lia.
Qed.

Lemma range_files_Err l st e :
  result (range_files l st) = Err e ->
  exists f cause,
    In f l /\ unreadable f = true /\
    (e = ErrOpeningFile (Name f) cause /\ Open f = inl cause \/
     e = ErrReadingFile (Name f) cause /\
     exists rc, Open f = inr rc /\ failure rc = Some cause).
Proof.
  revert st. induction l as [|f l IH]; intros st; [discriminate|].
  cbn [range_files]. rewrite result_bind.
  destruct (unreadable f) eqn:E.
  - destruct (visit_unreadable st f E) as (c & [[-> Ho]|[-> Hr]]);
      intros [= <-]; exists f, c; (split; [now left|]); split; auto.
  - rewrite visit_readable by assumption. intros H.
    destruct (IH _ H) as (g & c & Hin & Hg). exists g, c. split; [now right|auto].
Qed.

Lemma range_files_no_panic l st : result (range_files l st) <> Panic.
Proof.
  revert st. induction l as [|f l IH]; intros st; [discriminate|].
  cbn [range_files]. rewrite result_bind.
  destruct (unreadable f) eqn:E.
  - destruct (visit_unreadable st f E) as (c & [[-> _]|[-> _]]); discriminate.
  - rewrite visit_readable by assumption. apply IH.
Qed.

(** The first decoded page is always accepted. *)
Lemma first_page_kept p imgs :
  Forall decoded_shape imgs ->
  exists extra, images (fold_left offer (p :: imgs) empty_strip) = p :: extra.
Proof.
  intros H. cbn [fold_left].
  destruct (fold_offer_grows imgs (offer empty_strip p) H) as (extra & E & _).
  exists extra. rewrite E. reflexivity.
Qed.

Lemma no_page_kept_iff l :
  images (fold_left offer (pages l) empty_strip) = [] <-> pages l = [].
Proof.
  split.
  - destruct (pages l) as [|p imgs] eqn:E; [reflexivity|].
    pose proof (pages_shape l) as Hs. rewrite E in Hs.
    apply Forall_cons_iff in Hs.
    destruct (first_page_kept p imgs (proj2 Hs)) as (extra & ->). discriminate.
  - now intros ->.
Qed.

Lemma pages_nil_perm l l' : Permutation l l' -> pages l = [] -> pages l' = [].
Proof.
  intros P E. apply pages_perm in P. rewrite E in P.
  now apply Permutation_nil.
Qed.

Lemma pages_nil_iff l :
  pages l = [] <-> Forall (fun f => decoded f = None) l.
Proof.
  induction l as [|f l IH]; cbn [pages].
  - split; auto.
  - destruct (decoded f) eqn:E.
    + split; [discriminate|]. intros H. inversion H. congruence.
    + rewrite IH. split; [now constructor|]. intros H. now inversion H.
Qed.

(** With a first page of width other than 0 the loop is the state machine
    of the specification. *)
Lemma fold_offer_compose imgs st :
  Forall decoded_shape imgs ->
  commonWidth st <> 0 ->
  0 <= totalHeight st -> totalHeight st + rows imgs <= GoInt.int_max ->
  fold_left offer imgs st =
  strip_of (fold_left compose imgs
              (Established (commonWidth st) (images st) (totalHeight st))).
Proof.
  intros H. revert st. induction H as [|i imgs Hi Himgs IH]; intros st Hw H0 Hfit.
  - now destruct st.
  - cbn [fold_left rows] in *. unfold offer at 2, compose at 2.
    destruct (shape_Dy i Hi) as [_ Hh]. pose proof (rows_nonneg _ Himgs).
    pose proof int_min_neg.
    destruct (Z.eqb_spec (commonWidth st) 0); [contradiction|].
    destruct (Dx i =? commonWidth st).
    + rewrite IH; cbn [push commonWidth images totalHeight];
        rewrite ?add_small by lia; auto; lia.
    + apply IH; auto; lia.
Qed.

Lemma fold_offer_state_machine imgs :
  Forall decoded_shape imgs ->
  (forall p rest, imgs = p :: rest -> Dx p <> 0) ->
  rows imgs <= GoInt.int_max ->
  fold_left offer imgs empty_strip = strip_of (fold_left compose imgs Uninitialized).
Proof.
  intros Hs Hfirst Hfit. destruct imgs as [|p rest]; [reflexivity|].
  apply Forall_cons_iff in Hs. destruct Hs as [Hp Hrest].
  destruct (shape_Dy p Hp) as [_ Hh]. pose proof (rows_nonneg _ Hrest).
  pose proof int_min_neg. cbn [fold_left rows] in *.
  assert (offer empty_strip p = mkStrip [p] (Dy p) (Dx p)) as ->.
  { unfold offer, push. cbn. now rewrite add_small by lia. }
  rewrite fold_offer_compose; cbn [commonWidth totalHeight images]; auto;
    try lia. eapply Hfirst. reflexivity.
Qed.

Lemma filter_none {T} (test : T -> bool) l :
  Forall (fun x => test x = false) l -> filter test l = [].
Proof.
  induction 1 as [|x l Hx _ IH]; cbn [filter]; [reflexivity|]. now rewrite Hx.
Qed.

Lemma undecodable_readable file :
  undecodable file = true -> unreadable file = false /\ decoded file = None.
Proof.
  unfold undecodable, unreadable, decoded.
  destruct (isImageFile (Name file)); [|discriminate].
  destruct (contents file); [|discriminate].
  destruct (snd (decodeImage (bytes_NewReader b))) as [e|[i f]];
    [auto|discriminate].
Qed.

End Sorted.

(** * The claims *)

(** C1, as amended.  For every archive that opens and whose Candidate
    Entries can all be opened and read, with at least one Candidate Entry
    that decodes, all decoded pages of the same width [W], and a strip
    whose pixel buffer can be allocated: [CreateWebtoonStrip] returns a
    raster whose width is [W] and whose height is the exact sum of the
    heights of the decoded pages. *)
Theorem strip_dimensions {sorter : Sorter} {codecs : Codecs}
    (disk : Disk) (path : string) (files : list File) (W : Z) :
  disk path = inr files ->
  Forall (fun f => unreadable f = false) files ->
  (exists f img, In f files /\ decoded f = Some img) ->
  (forall f img, In f files -> decoded f = Some img -> Dx img = W) ->
  allocatable W (rows (pages files)) ->
  exists strip,
    result (CreateWebtoonStrip disk path) = Ok strip /\
    Dx strip = W /\ Dy strip = rows (pages files).
Proof.
  intros Hdisk Hread (f0 & img0 & Hin0 & Hdec0) Hwidth Halloc.
  pose proof (sort_Slice_perm files) as Hperm.
  assert (Forall (fun i => Dx i = W) (pages (sort_Slice files))) as Huni.
  { clear - Hwidth Hperm.
    assert (forall f img, In f (sort_Slice files) -> decoded f = Some img ->
                          Dx img = W) as Hw.
    { intros f img Hf. apply Hwidth. eapply Permutation_in; [symmetry|]; eassumption. }
    clear Hwidth Hperm. induction (sort_Slice files) as [|f l IH]; cbn [pages].
    - constructor.
    - destruct (decoded f) eqn:E.
      + constructor; [eapply Hw; [now left|eassumption]|].
        apply IH. intros g img Hg. apply Hw. now right.
      + apply IH. intros g img Hg. apply Hw. now right. }
  assert (pages (sort_Slice files) <> []) as Hne.
  { apply (Permutation_in _ Hperm) in Hin0. clear - Hin0 Hdec0.
    induction (sort_Slice files) as [|f l IH]; [contradiction|].
    cbn [pages]. destruct Hin0 as [->|Hin].
    - now rewrite Hdec0.
    - destruct (decoded f); [discriminate|auto]. }
  rewrite CreateWebtoonStrip_unfold, Hdisk.
  rewrite range_files_readable by (eapply unreadable_perm; eassumption).
  set (st := fold_left offer (pages (sort_Slice files)) empty_strip).
  destruct (fold_offer_uniform W (pages (sort_Slice files)) empty_strip Huni)
    as [Himgs Hcw]; [now left|]. fold st in Himgs, Hcw.
  cbn [images empty_strip app] in Himgs.
  assert (commonWidth st = W) as HW
    by (rewrite Hcw; destruct (pages (sort_Slice files)); congruence).
  assert (rows (images st) = rows (pages files)) as Hrows
    by (rewrite Himgs; symmetry; apply rows_perm, pages_perm, Hperm).
  destruct (strip_built st) as (blank & Hnew & HDx & HDy & _).
  - apply counted_fold, counted_empty.
  - rewrite Himgs. apply pages_shape.
  - apply width_fold; [apply pages_shape|]. cbn. pose proof int_max_pos. lia.
  - now rewrite HW, Hrows.
  - rewrite Hnew. destruct (images st) as [|i l] eqn:E; [congruence|].
    eexists. split; [reflexivity|]. rewrite HDx, HDy. split; congruence.
Qed.

Lemma strip_dimensions_witness :
  exists strip,
    result (CreateWebtoonStrip (sorter := insertion_sorter)
              (codecs := tagged_codecs) (Toy.disk_of Toy.two_pages) "comic.cbz")
      = Ok strip /\
    Dx strip = 2 /\ Dy strip = 4.
Proof.
  apply (strip_dimensions (sorter := insertion_sorter) (codecs := tagged_codecs)
           (Toy.disk_of Toy.two_pages) "comic.cbz" Toy.two_pages 2).
  - reflexivity.
  - repeat constructor.
  - exists (Toy.entry "01.jpg" ["J"%byte; x02; x01; x07]). eexists.
    split; [right; left; reflexivity | reflexivity].
  - intros f img [<-|[<-|[]]] Hd; vm_compute in Hd; try discriminate;
      injection Hd as <-; reflexivity.
  - vm_compute. repeat split; discriminate.
Defined.

(** C1, as stated, fails on an archive with a good page and a Candidate
    Entry whose bytes cannot be read: the premises hold (one entry decodes,
    every decoded page has width 1, the strip would fit), and
    [CreateWebtoonStrip] returns an error instead of a raster. *)
Lemma strip_dimensions_unreadable_entry :
  (exists f img, In f Toy.torn_archive /\
     decoded (codecs := tagged_codecs) f = Some img) /\
  (forall f img, In f Toy.torn_archive ->
     decoded (codecs := tagged_codecs) f = Some img -> Dx img = 1) /\
  allocatable 1 (rows (pages (codecs := tagged_codecs) Toy.torn_archive)) /\
  result (CreateWebtoonStrip (sorter := insertion_sorter)
            (codecs := tagged_codecs) (Toy.disk_of Toy.torn_archive) "comic.cbz")
    = Err (ErrReadingFile "2.png" "zip: checksum error").
Proof.
  split; [|split; [|split]].
  - exists (Toy.entry "1.png" ["P"%byte; x01; x01; x00]). eexists.
    split; [left; reflexivity | reflexivity].
  - intros f img [<-|[<-|[]]] Hd; vm_compute in Hd; try discriminate;
      injection Hd as <-; reflexivity.
  - vm_compute. repeat split; discriminate.
  - reflexivity.
Qed.

(** C2.  Accepted pages are composited in ascending order of their entry
    names: when the entry [a] sorts before the entry [b] and both pages are
    accepted, the rows of [a]'s page lie strictly above those of [b]'s in
    the strip, and the strip shows each page row by row from its top.
    (The rows of the decoded pages are assumed to be countable in an
    [int].) *)
Theorem pages_in_name_order {sorter : Sorter} {codecs : Codecs}
    (disk : Disk) (path : string) (files : list File) (strip : Image)
    (a b : File) (imgA imgB : Image) (yA yB : Z) :
  disk path = inr files ->
  result (CreateWebtoonStrip disk path) = Ok strip ->
  rows (pages files) <= GoInt.int_max ->
  placed (sort_Slice files) a imgA yA ->
  placed (sort_Slice files) b imgB yB ->
  less a b = true ->
  0 <= yA /\ yA + Dy imgA <= yB /\ yB + Dy imgB <= Dy strip /\
  shows strip yA imgA /\ shows strip yB imgB.
Proof.
  intros Hdisk Hres Hrows (bA & aA & stA & EA & HstA & HaccA & ->)
    (bB & aB & stB & EB & HstB & HaccB & ->) Hab.
  rewrite CreateWebtoonStrip_unfold, Hdisk in Hres.
  destruct (result (range_files (sort_Slice files) empty_strip))
    as [st| |] eqn:Hrun; try discriminate.
  pose proof (range_files_Ok_readable _ _ _ Hrun) as Hread.
  apply range_files_Ok in Hrun, HstA, HstB.
  destruct (images st) as [|i0 l0] eqn:Eimgs; [discriminate|]. rewrite <- Eimgs in Hres.
  destruct (NewRGBA (Rect 0 0 (commonWidth st) (totalHeight st)))
    as [blank|] eqn:Hnew; [|discriminate].
  injection Hres as Hstrip. symmetry in Hstrip.
  rewrite (rows_perm _ _ (pages_perm _ _ (sort_Slice_perm files))) in Hrows.
  subst stA stB.
  destruct (accepted_page_shown bA a aA imgA st strip blank)
    as (EyA & HyA & HfitA & HshowA); try (rewrite <- EA; assumption); auto.
  destruct (accepted_page_shown bB b aB imgB st strip blank)
    as (EyB & HyB & HfitB & HshowB); try (rewrite <- EB; assumption); auto.
  repeat split; auto.
  (* [a] stands before [b] in the sorted list *)
  pose proof (sort_Slice_sorted files) as Hsorted. rewrite EA in Hsorted.
  destruct (sorted_split_order bA a aA bB b aB Hsorted) as [mid ->];
    [congruence|assumption|].
  rewrite EyA, EyB. rewrite pages_app. cbn [pages].
  destruct HaccA as [HdecA HwA]. rewrite HdecA, fold_left_app. cbn [fold_left].
  set (st0 := fold_left offer (pages bA) empty_strip) in *.
  assert (offer st0 imgA = push st0 (Dx imgA) imgA) as ->.
  { unfold offer. destruct (Z.eqb_spec (commonWidth st0) 0); [reflexivity|].
    destruct HwA as [|HwA]; [contradiction|]. rewrite HwA, Z.eqb_refl.
    reflexivity. }
  destruct (fold_offer_grows (pages mid) (push st0 (Dx imgA) imgA) (pages_shape mid))
    as (extra & -> & Hextra & _ & _).
  cbn [images push]. rewrite !rows_app. cbn [rows].
  pose proof (rows_nonneg _ Hextra). lia.
Qed.

Lemma pages_in_name_order_witness :
  exists strip,
    result (CreateWebtoonStrip (sorter := insertion_sorter)
              (codecs := tagged_codecs) (Toy.disk_of Toy.two_pages) "comic.cbz")
      = Ok strip /\
    (0 <= 0 /\ 0 + Dy (Toy.picture 2 1 7) <= 1 /\
     1 + Dy (Toy.picture 2 3 9) <= Dy strip /\
     shows strip 0 (Toy.picture 2 1 7) /\ shows strip 1 (Toy.picture 2 3 9)).
Proof.
  eexists. split; [reflexivity|].
  apply (pages_in_name_order (sorter := insertion_sorter)
           (codecs := tagged_codecs) (Toy.disk_of Toy.two_pages) "comic.cbz"
           Toy.two_pages _
           (Toy.entry "01.jpg" ["J"%byte; x02; x01; x07])
           (Toy.entry "02.png" ["P"%byte; x02; x03; x09])).
  - reflexivity.
  - reflexivity.
  - vm_compute. discriminate.
  - exists [], [Toy.entry "02.png" ["P"%byte; x02; x03; x09]], empty_strip.
    split; [reflexivity|]. split; [reflexivity|].
    split; [split; [reflexivity|left; reflexivity]|reflexivity].
  - exists [Toy.entry "01.jpg" ["J"%byte; x02; x01; x07]], [].
    eexists. split; [reflexivity|]. split; [reflexivity|].
    split; [split; [reflexivity|right; reflexivity]|reflexivity].
  - reflexivity.
Defined.

(** C3, as amended.  The errors [CreateWebtoonStrip] returns are: the
    archive cannot be opened; a Candidate Entry cannot be opened or its
    bytes cannot be read, which ends the request at once; or, every
    Candidate Entry having been read, no page decodes.  It never returns
    an encoding error, and decode failures and width mismatches alone
    never end in an error. *)
Theorem error_outcomes {sorter : Sorter} {codecs : Codecs}
    (disk : Disk) (path : string) (e : error) :
  result (CreateWebtoonStrip disk path) = Err e ->
  (exists cause, disk path = inl cause /\ e = ErrOpeningCBZ cause) \/
  (exists files f cause,
     disk path = inr files /\ In f files /\ isImageFile (Name f) = true /\
     (e = ErrOpeningFile (Name f) cause /\ Open f = inl cause \/
      e = ErrReadingFile (Name f) cause /\
      exists rc, Open f = inr rc /\ failure rc = Some cause)) \/
  (exists files,
     disk path = inr files /\
     Forall (fun f => unreadable f = false) files /\
     Forall (fun f => decoded f = None) files /\
     e = ErrNoValidImages).
Proof.
  rewrite CreateWebtoonStrip_unfold.
  destruct (disk path) as [c|files] eqn:Hdisk.
  { intros [= <-]. left. now exists c. }
  pose proof (sort_Slice_perm files) as Hperm.
  destruct (result (range_files (sort_Slice files) empty_strip))
    as [st|e'|] eqn:Hrun.
  - pose proof (range_files_Ok_readable _ _ _ Hrun) as Hread.
    apply range_files_Ok in Hrun.
    destruct (images st) as [|i l] eqn:Eimgs.
    + intros [= <-]. right. right. exists files. split; [reflexivity|].
      split; [eapply unreadable_perm; [symmetry|]; eassumption|].
      split; [|reflexivity]. apply pages_nil_iff.
      apply (pages_nil_perm (sort_Slice files)); [now symmetry|].
      apply no_page_kept_iff. now rewrite <- Hrun.
    + destruct (NewRGBA _); discriminate.
  - intros [= <-]. right. left.
    destruct (range_files_Err _ _ _ Hrun) as (f & c & Hin & Hun & He).
    exists files, f, c. split; [reflexivity|].
    split; [eapply Permutation_in; [symmetry|]; eassumption|].
    split; [|exact He]. unfold unreadable in Hun.
    now destruct (isImageFile (Name f)).
  - discriminate.
Qed.

Lemma error_outcomes_witness :
  (exists cause,
     Toy.disk_of Toy.torn_archive "comic.cbz"%string = inl cause /\
     ErrReadingFile "2.png" "zip: checksum error" = ErrOpeningCBZ cause) \/
  (exists files f cause,
     Toy.disk_of Toy.torn_archive "comic.cbz"%string = inr files /\ In f files /\
     isImageFile (Name f) = true /\
     (ErrReadingFile "2.png" "zip: checksum error" = ErrOpeningFile (Name f) cause /\
      Open f = inl cause \/
      ErrReadingFile "2.png" "zip: checksum error" = ErrReadingFile (Name f) cause /\
      exists rc, Open f = inr rc /\ failure rc = Some cause)) \/
  (exists files,
     Toy.disk_of Toy.torn_archive "comic.cbz"%string = inr files /\
     Forall (fun f => unreadable f = false) files /\
     Forall (fun f => decoded (codecs := tagged_codecs) f = None) files /\
     ErrReadingFile "2.png" "zip: checksum error" = ErrNoValidImages).
Proof.
  apply (error_outcomes (sorter := insertion_sorter) (codecs := tagged_codecs)
           (Toy.disk_of Toy.torn_archive) "comic.cbz").
  reflexivity.
Defined.

(** C3, as stated, fails: a Candidate Entry whose bytes cannot be read
    ends the request with an error that is none of the three the
    specification names. *)
Lemma read_failure_terminates :
  In (Toy.torn_entry "2.png" ["P"%byte; x01; x01; x00]) Toy.torn_archive /\
  isImageFile "2.png" = true /\
  result (CreateWebtoonStrip (sorter := insertion_sorter)
            (codecs := tagged_codecs) (Toy.disk_of Toy.torn_archive) "comic.cbz")
    = Err (ErrReadingFile "2.png" "zip: checksum error") /\
  terminal_in_spec (ErrReadingFile "2.png" "zip: checksum error") = false.
Proof.
  split; [right; left; reflexivity|]. repeat split.
Qed.

(** C6.  [CreateWebtoonStrip] fails with the no-valid-pages error exactly
    when the archive opens and the loop over its entries ends with no page
    accepted, which is when every Candidate Entry was read and none
    decoded; in particular when the archive has no Candidate Entry. *)
Theorem no_valid_pages {sorter : Sorter} {codecs : Codecs}
    (disk : Disk) (path : string) :
  (result (CreateWebtoonStrip disk path) = Err ErrNoValidImages <->
   exists files st,
     disk path = inr files /\
     result (range_files (sort_Slice files) empty_strip) = Ok st /\
     images st = []) /\
  (result (CreateWebtoonStrip disk path) = Err ErrNoValidImages <->
   exists files,
     disk path = inr files /\
     Forall (fun f => unreadable f = false) files /\
     Forall (fun f => decoded f = None) files) /\
  (forall files,
     disk path = inr files ->
     Forall (fun f => isImageFile (Name f) = false) files ->
     result (CreateWebtoonStrip disk path) = Err ErrNoValidImages).
Proof.
  assert (forall files, disk path = inr files ->
            Forall (fun f => unreadable f = false) files ->
            Forall (fun f => decoded f = None) files ->
            result (CreateWebtoonStrip disk path) = Err ErrNoValidImages) as Hback.
  { intros files Hdisk Hread Hnone.
    pose proof (sort_Slice_perm files) as Hperm.
    rewrite CreateWebtoonStrip_unfold, Hdisk.
    rewrite range_files_readable by (eapply unreadable_perm; eassumption).
    apply pages_nil_iff in Hnone.
    rewrite (pages_nil_perm _ _ Hperm Hnone). reflexivity. }
  split; [|split].
  - split.
    + intros Hres. rewrite CreateWebtoonStrip_unfold in Hres.
      destruct (disk path) as [c|files]; [discriminate|].
      destruct (result (range_files (sort_Slice files) empty_strip))
        as [st|e'|] eqn:Hrun; try discriminate.
      * exists files, st. split; [reflexivity|]. split; [exact Hrun|].
        destruct (images st); [reflexivity|].
        destruct (NewRGBA _); discriminate.
      * injection Hres as ->.
        destruct (range_files_Err _ _ _ Hrun) as (f & c & _ & _ & [[? _]|[? _]]);
          discriminate.
    + intros (files & st & Hdisk & Hrun & Himgs).
      rewrite CreateWebtoonStrip_unfold, Hdisk, Hrun, Himgs. reflexivity.
  - split.
    + intros Hres. rewrite CreateWebtoonStrip_unfold in Hres.
      destruct (disk path) as [c|files]; [discriminate|].
      destruct (result (range_files (sort_Slice files) empty_strip))
        as [st|e'|] eqn:Hrun; try discriminate.
      * pose proof (sort_Slice_perm files) as Hperm.
        pose proof (range_files_Ok_readable _ _ _ Hrun) as Hread.
        apply range_files_Ok in Hrun.
        destruct (images st) eqn:Himgs; [|destruct (NewRGBA _); discriminate].
        exists files. split; [reflexivity|].
        split; [eapply unreadable_perm; [symmetry|]; eassumption|].
        apply pages_nil_iff.
        apply (pages_nil_perm (sort_Slice files)); [now symmetry|].
        apply no_page_kept_iff. now rewrite <- Hrun.
      * injection Hres as ->.
        destruct (range_files_Err _ _ _ Hrun) as (f & c & _ & _ & [[? _]|[? _]]);
          discriminate.
    + intros (files & Hdisk & Hread & Hnone). eapply Hback; eassumption.
  - intros files Hdisk Hnot. apply (Hback files Hdisk).
    + eapply Forall_impl; [|exact Hnot]. cbn. intros f Hf.
      unfold unreadable. now rewrite Hf.
    + eapply Forall_impl; [|exact Hnot]. cbn. intros f Hf.
      unfold decoded. now rewrite Hf.
Qed.

Lemma no_valid_pages_witness :
  result (CreateWebtoonStrip (sorter := insertion_sorter)
            (codecs := tagged_codecs) (Toy.disk_of Toy.no_candidates) "comic.cbz")
    = Err ErrNoValidImages.
Proof.
  apply (proj2 (proj2 (no_valid_pages (sorter := insertion_sorter)
                         (codecs := tagged_codecs)
                         (Toy.disk_of Toy.no_candidates) "comic.cbz"))
           Toy.no_candidates).
  - reflexivity.
  - repeat constructor.
Defined.

(** C4, as amended.  When the first successfully decoded Raster has a
    width other than 0, the loop over the sorted entries follows the state
    machine of the specification: that Raster establishes the fixed width,
    every later Raster of that width is appended and extends the height by
    its own, every later Raster of another width is discarded, and the
    loop does not fail.  (Every Candidate Entry is readable, and the rows
    of the decoded pages are countable in an [int].) *)
Theorem compositor_state_machine {sorter : Sorter} {codecs : Codecs}
    (files : list File) :
  Forall (fun f => unreadable f = false) files ->
  (forall p rest, pages (sort_Slice files) = p :: rest -> Dx p <> 0) ->
  rows (pages files) <= GoInt.int_max ->
  result (range_files (sort_Slice files) empty_strip) =
  Ok (strip_of (fold_left compose (pages (sort_Slice files)) Uninitialized)).
Proof.
  intros Hread Hfirst Hfit. pose proof (sort_Slice_perm files) as Hperm.
  rewrite range_files_readable by (eapply unreadable_perm; eassumption).
  f_equal. apply fold_offer_state_machine; auto using pages_shape.
  now rewrite <- (rows_perm _ _ (pages_perm _ _ Hperm)).
Qed.

Lemma compositor_state_machine_witness :
  result (range_files (codecs := tagged_codecs)
            (sort_Slice (Sorter := insertion_sorter) Toy.two_widths) empty_strip) =
  Ok (strip_of (fold_left compose
                  (pages (codecs := tagged_codecs)
                     (sort_Slice (Sorter := insertion_sorter) Toy.two_widths))
                  Uninitialized)).
Proof.
  apply (compositor_state_machine (sorter := insertion_sorter)
           (codecs := tagged_codecs) Toy.two_widths).
  - repeat constructor.
  - intros p rest E. vm_compute in E. injection E as <- _. vm_compute. discriminate.
  - vm_compute. discriminate.
Defined.

(** C4, as stated, fails when the first decoded Raster has width 0: the
    next Raster, of width 2, differs from the width that was established
    and is accepted all the same, where the state machine discards it. *)
Lemma zero_width_page_is_no_sentinel :
  pages (codecs := tagged_codecs)
    (sort_Slice (Sorter := insertion_sorter) Toy.zero_first)
    = [Toy.picture 0 1 0; Toy.picture 2 3 0] /\
  result (range_files (codecs := tagged_codecs)
            (sort_Slice (Sorter := insertion_sorter) Toy.zero_first) empty_strip)
    = Ok (mkStrip [Toy.picture 0 1 0; Toy.picture 2 3 0] 4 2) /\
  strip_of (fold_left compose [Toy.picture 0 1 0; Toy.picture 2 3 0] Uninitialized)
    = mkStrip [Toy.picture 0 1 0] 1 0.
Proof. repeat split. Qed.

(** C10.  When the first decoded page of the sorted entries has width 0,
    it is accepted and its height counted while the common width stays 0;
    the common width then becomes the width of the next decoded page whose
    width is not 0 and keeps that value to the end of the loop, and the
    accepted pages include both, of two distinct widths.  (The entries
    before that next page are readable, so that the loop reaches it.) *)
Theorem zero_width_first_page {sorter : Sorter} {codecs : Codecs}
    (files l1 l2 l3 : list File) (f0 f1 : File) (p0 p1 : Image) :
  sort_Slice files = l1 ++ f0 :: l2 ++ f1 :: l3 ->
  Forall (fun f => unreadable f = false) (l1 ++ l2) ->
  pages l1 = [] -> decoded f0 = Some p0 -> Dx p0 = 0 ->
  Forall (fun p => Dx p = 0) (pages l2) ->
  decoded f1 = Some p1 -> Dx p1 <> 0 ->
  result (range_files (l1 ++ [f0]) empty_strip) = Ok (mkStrip [p0] (Dy p0) 0) /\
  (exists st,
     result (range_files (l1 ++ f0 :: l2 ++ [f1]) empty_strip) = Ok st /\
     images st = p0 :: pages l2 ++ [p1] /\ commonWidth st = Dx p1) /\
  (forall st,
     result (range_files (sort_Slice files) empty_strip) = Ok st ->
     commonWidth st = Dx p1 /\
     images st =
       p0 :: pages l2 ++ p1 :: filter (fun i => Dx i =? Dx p1) (pages l3)) /\
  Dx p0 <> Dx p1.
Proof.
  intros Esorted Hread Hl1 Hd0 Hw0 Hl2 Hd1 Hw1.
  apply Forall_app in Hread. destruct Hread as [Hr1 Hr2].
  pose proof (decoded_readable _ _ Hd0) as Hr0.
  pose proof (decoded_readable _ _ Hd1) as Hr1'.
  pose proof (decoded_shape_of _ _ Hd0) as Hs0.
  destruct (shape_Dy p0 Hs0) as [_ Hh0]. pose proof int_min_neg.
  assert (offer empty_strip p0 = mkStrip [p0] (Dy p0) 0) as Hfirst.
  { unfold offer, push. cbn. rewrite Hw0. now rewrite add_small by lia. }
  set (st0 := mkStrip [p0] (Dy p0) 0) in *.
  destruct (fold_offer_uniform 0 (pages l2) st0 Hl2) as [E2 W2]; [now left|].
  set (st2 := fold_left offer (pages l2) st0) in *.
  assert (commonWidth st2 = 0) as W2' by (rewrite W2; now destruct (pages l2)).
  assert (offer st2 p1 = push st2 (Dx p1) p1) as Hnext
    by (unfold offer; now rewrite W2').
  assert (forall tail,
            fold_left offer (pages (l1 ++ f0 :: l2 ++ f1 :: tail)) empty_strip =
            fold_left offer (pages tail) (push st2 (Dx p1) p1)) as Hfold.
  { intros tail. rewrite pages_app, Hl1. cbn [pages app].
    rewrite Hd0, pages_app. cbn [pages]. rewrite Hd1. cbn [fold_left].
    rewrite Hfirst, fold_left_app. cbn [fold_left]. fold st2. now rewrite Hnext. }
  split; [|split; [|split]].
  - rewrite range_files_readable.
    + rewrite pages_app, Hl1. cbn [pages app]. rewrite Hd0. cbn [fold_left].
      exact (f_equal Ok Hfirst).
    + apply Forall_app. split; [assumption|now repeat constructor].
  - eexists. split.
    + apply range_files_readable. apply Forall_app. split; [assumption|].
      constructor; [assumption|]. apply Forall_app. split; [assumption|].
      now repeat constructor.
    + rewrite Hfold. cbn [pages fold_left images commonWidth push].
      rewrite E2. cbn [images st0 app]. split; reflexivity.
  - intros st Hrun. apply range_files_Ok in Hrun. rewrite Esorted, Hfold in Hrun.
    destruct (fold_offer_fixed (pages l3) (push st2 (Dx p1) p1)) as [E3 W3];
      [exact Hw1|].
    rewrite Hrun, E3, W3. cbn [images commonWidth push]. rewrite E2.
    cbn [images st0]. rewrite <- app_assoc. cbn [app]. split; reflexivity.
  - congruence.
Qed.

Lemma zero_width_first_page_witness :
  result (range_files (codecs := tagged_codecs)
            ([] ++ [Toy.entry "1.png" ["P"%byte; x00; x01; x00]]) empty_strip)
    = Ok (mkStrip [Toy.picture 0 1 0] (Dy (Toy.picture 0 1 0)) 0) /\
  (exists st,
     result (range_files (codecs := tagged_codecs)
               ([] ++ Toy.entry "1.png" ["P"%byte; x00; x01; x00] ::
                [] ++ [Toy.entry "2.png" ["P"%byte; x02; x03; x00]]) empty_strip)
       = Ok st /\
     images st =
       Toy.picture 0 1 0 :: pages (codecs := tagged_codecs) [] ++ [Toy.picture 2 3 0] /\
     commonWidth st = Dx (Toy.picture 2 3 0)) /\
  (forall st,
     result (range_files (codecs := tagged_codecs)
               (sort_Slice (Sorter := insertion_sorter) Toy.zero_first) empty_strip)
       = Ok st ->
     commonWidth st = Dx (Toy.picture 2 3 0) /\
     images st =
       Toy.picture 0 1 0 ::
       pages (codecs := tagged_codecs) [] ++
       Toy.picture 2 3 0 ::
       filter (fun i => Dx i =? Dx (Toy.picture 2 3 0))
         (pages (codecs := tagged_codecs) [])) /\
  Dx (Toy.picture 0 1 0) <> Dx (Toy.picture 2 3 0).
Proof.
  apply (zero_width_first_page (sorter := insertion_sorter)
           (codecs := tagged_codecs) Toy.zero_first [] [] []
           (Toy.entry "1.png" ["P"%byte; x00; x01; x00])
           (Toy.entry "2.png" ["P"%byte; x02; x03; x00])).
  - reflexivity.
  - constructor.
  - reflexivity.
  - reflexivity.
  - reflexivity.
  - constructor.
  - reflexivity.
  - vm_compute. discriminate.
Defined.

(** C7, as amended.  When the first decoded page of the sorted entries has
    a width other than 0 and every other decoded page has a different
    width, the conversion does not fail: it returns a strip that is the
    first page alone, all other pages being rejected for width mismatch.
    (Every Candidate Entry is readable and the page's pixel buffer can be
    allocated.) *)
Theorem first_page_alone {sorter : Sorter} {codecs : Codecs}
    (disk : Disk) (path : string) (files l1 l2 : list File)
    (f1 : File) (p1 : Image) :
  disk path = inr files ->
  sort_Slice files = l1 ++ f1 :: l2 ->
  Forall (fun f => unreadable f = false) files ->
  pages l1 = [] -> decoded f1 = Some p1 -> Dx p1 <> 0 ->
  Forall (fun p => Dx p <> Dx p1) (pages l2) ->
  allocatable (Dx p1) (Dy p1) ->
  exists strip,
    result (CreateWebtoonStrip disk path) = Ok strip /\
    Dx strip = Dx p1 /\ Dy strip = Dy p1 /\ shows strip 0 p1.
Proof.
  intros Hdisk Esorted Hread Hl1 Hd1 Hw1 Hl2 Halloc.
  pose proof (sort_Slice_perm files) as Hperm.
  apply (unreadable_perm _ _ Hperm) in Hread.
  rewrite CreateWebtoonStrip_unfold, Hdisk, range_files_readable by assumption.
  set (st := fold_left offer (pages (sort_Slice files)) empty_strip).
  assert (counted st) as Hc by apply counted_fold, counted_empty.
  assert (0 <= commonWidth st <= GoInt.int_max) as Hw.
  { apply width_fold; [apply pages_shape|]. cbn. pose proof int_max_pos. lia. }
  assert (images st = [p1] /\ commonWidth st = Dx p1) as [Eimgs Ecw].
  { unfold st. rewrite Esorted, pages_app, Hl1. cbn [pages app].
    rewrite Hd1. cbn [fold_left].
    assert (offer empty_strip p1 = push empty_strip (Dx p1) p1) as -> by reflexivity.
    destruct (fold_offer_fixed (pages l2) (push empty_strip (Dx p1) p1))
      as [E W]; [exact Hw1|].
    rewrite E, W. cbn [images commonWidth push empty_strip app]. split; auto.
    rewrite filter_none; [reflexivity|].
    eapply Forall_impl; [|exact Hl2]. cbn. intros p Hp. now apply Z.eqb_neq. }
  pose proof (decoded_shape_of _ _ Hd1) as Hs1.
  destruct (strip_built st) as (blank & Hnew & HDx & HDy & Hshow); auto.
  - rewrite Eimgs. now constructor.
  - rewrite Eimgs, Ecw. cbn [rows]. now rewrite Z.add_0_r.
  - rewrite Hnew, Eimgs. rewrite Eimgs in HDx, HDy, Hshow.
    eexists. split; [reflexivity|]. rewrite HDx, HDy. cbn [rows].
    repeat split; auto; try lia.
    intros x y Hx Hy. apply (Hshow [] p1 []); auto. lia.
Qed.

Lemma first_page_alone_witness :
  exists strip,
    result (CreateWebtoonStrip (sorter := insertion_sorter)
              (codecs := tagged_codecs) (Toy.disk_of Toy.two_widths) "comic.cbz")
      = Ok strip /\
    Dx strip = Dx (Toy.picture 1 1 0) /\ Dy strip = Dy (Toy.picture 1 1 0) /\
    shows strip 0 (Toy.picture 1 1 0).
Proof.
  apply (first_page_alone (sorter := insertion_sorter) (codecs := tagged_codecs)
           (Toy.disk_of Toy.two_widths) "comic.cbz" Toy.two_widths
           [] [Toy.entry "2.png" ["P"%byte; x02; x03; x00]]
           (Toy.entry "1.png" ["P"%byte; x01; x01; x00])).
  - reflexivity.
  - reflexivity.
  - repeat constructor.
  - reflexivity.
  - reflexivity.
  - vm_compute. discriminate.
  - repeat constructor. vm_compute. discriminate.
  - vm_compute. repeat split; discriminate.
Defined.

(** C7, as stated, fails: with pages of widths 1 and 2 every page but the
    first accepted one has another width than it, and the conversion
    returns the first page as the strip instead of the no-valid-pages
    error. *)
Lemma width_mismatch_is_no_error :
  pages (codecs := tagged_codecs)
    (sort_Slice (Sorter := insertion_sorter) Toy.two_widths)
    = [Toy.picture 1 1 0; Toy.picture 2 3 0] /\
  Dx (Toy.picture 2 3 0) <> Dx (Toy.picture 1 1 0) /\
  result (CreateWebtoonStrip (sorter := insertion_sorter)
            (codecs := tagged_codecs) (Toy.disk_of Toy.two_widths) "comic.cbz")
    <> Err ErrNoValidImages /\
  exists strip,
    result (CreateWebtoonStrip (sorter := insertion_sorter)
              (codecs := tagged_codecs) (Toy.disk_of Toy.two_widths) "comic.cbz")
      = Ok strip /\
    Dx strip = 1 /\ Dy strip = 1.
Proof.
  split; [reflexivity|]. split; [vm_compute; discriminate|].
  assert (exists strip,
            result (CreateWebtoonStrip (sorter := insertion_sorter)
                      (codecs := tagged_codecs) (Toy.disk_of Toy.two_widths)
                      "comic.cbz") = Ok strip /\
            Dx strip = 1 /\ Dy strip = 1) as (strip & E & Hdims)
    by (eexists; split; [reflexivity|split; reflexivity]).
  split; [rewrite E; discriminate|]. exists strip. split; [exact E|exact Hdims].
Qed.

(** C5.  A Candidate Entry whose bytes no decoder accepts is skipped: the
    loop body returns the strip unchanged and the loop goes on with the
    next entry as if the entry were not there.  In particular an archive
    of two pages of width [W] and one such entry yields, without error, a
    strip that is exactly the two pages, one above the other.  (The
    strip's pixel buffer can be allocated.) *)
Theorem decode_failure_skipped {sorter : Sorter} {codecs : Codecs} :
  (forall st bad, undecodable bad = true -> result (visit st bad) = Ok st) /\
  (forall before bad after st,
     undecodable bad = true ->
     result (range_files (before ++ bad :: after) st) =
     result (range_files (before ++ after) st)) /\
  (forall (disk : Disk) path files fa fb bad pa pb W,
     disk path = inr files ->
     Permutation files [fa; fb; bad] ->
     decoded fa = Some pa -> decoded fb = Some pb ->
     Dx pa = W -> Dx pb = W ->
     undecodable bad = true ->
     allocatable W (Dy pa + Dy pb) ->
     exists strip top bottom,
       result (CreateWebtoonStrip disk path) = Ok strip /\
       Dx strip = W /\ Dy strip = Dy pa + Dy pb /\
       (top = pa /\ bottom = pb \/ top = pb /\ bottom = pa) /\
       shows strip 0 top /\ shows strip (Dy top) bottom).
Proof.
  split; [|split].
  - intros st bad. apply visit_undecodable.
  - intros before bad after st Hbad.
    rewrite !range_files_app. destruct (result (range_files before st)); auto.
    cbn [range_files]. now rewrite result_bind, visit_undecodable.
  - intros disk path files fa fb bad pa pb W Hdisk Hfiles Ha Hb HWa HWb Hbad Halloc.
    pose proof (sort_Slice_perm files) as Hperm.
    destruct (undecodable_readable bad Hbad) as [Hrbad Hdbad].
    assert (Forall (fun f => unreadable f = false) (sort_Slice files)) as Hread.
    { apply (unreadable_perm files); [assumption|].
      apply (unreadable_perm [fa; fb; bad]); [now symmetry|].
      repeat constructor; eauto using decoded_readable. }
    assert (Permutation [pa; pb] (pages (sort_Slice files))) as Hpages.
    { assert (pages [fa; fb; bad] = [pa; pb]) as <-
        by (cbn [pages]; now rewrite Ha, Hb, Hdbad).
      apply pages_perm. now rewrite <- Hfiles. }
    assert (exists top bottom,
              pages (sort_Slice files) = [top; bottom] /\
              (top = pa /\ bottom = pb \/ top = pb /\ bottom = pa))
      as (top & bottom & Epages & Hwhich).
    { destruct (Permutation_length_2_inv Hpages) as [->| ->];
        [exists pa, pb|exists pb, pa]; auto. }
    assert (Dx top = W /\ Dx bottom = W /\ Dy pa + Dy pb = Dy top + Dy bottom)
      as (HWt & HWb' & Hsum)
      by (destruct Hwhich as [[-> ->]|[-> ->]]; repeat split; auto; lia).
    rewrite CreateWebtoonStrip_unfold, Hdisk, range_files_readable by assumption.
    set (st := fold_left offer (pages (sort_Slice files)) empty_strip).
    destruct (fold_offer_uniform W (pages (sort_Slice files)) empty_strip)
      as [Eimgs Ecw]; [rewrite Epages; now repeat constructor|now left|].
    fold st in Eimgs, Ecw. rewrite Epages in Eimgs, Ecw.
    cbn [images empty_strip app] in Eimgs.
    destruct (strip_built st) as (blank & Hnew & HDx & HDy & Hshow).
    + apply counted_fold, counted_empty.
    + rewrite Eimgs, <- Epages. apply pages_shape.
    + apply width_fold; [apply pages_shape|]. cbn. pose proof int_max_pos. lia.
    + rewrite Eimgs, Ecw. cbn [rows]. rewrite Z.add_0_r, <- Hsum. exact Halloc.
    + rewrite Hnew, Eimgs. rewrite Eimgs in HDx, HDy, Hshow.
      eexists. exists top, bottom. split; [reflexivity|].
      rewrite HDx, HDy. rewrite Ecw in Hshow |- *. cbn [rows].
      split; [reflexivity|].
      split; [lia|]. split; [exact Hwhich|]. split.
      * intros x y Hx Hy. apply (Hshow [] top [bottom]); auto. lia.
      * intros x y Hx Hy.
        replace (Dy top + y) with (rows [top] + y) by (cbn [rows]; lia).
        apply (Hshow [top] bottom []); auto. lia.
Qed.

Lemma decode_failure_skipped_witness :
  exists strip top bottom,
    result (CreateWebtoonStrip (sorter := insertion_sorter)
              (codecs := tagged_codecs) (Toy.disk_of Toy.one_corrupt) "comic.cbz")
      = Ok strip /\
    Dx strip = 2 /\
    Dy strip = Dy (Toy.picture 2 3 9) + Dy (Toy.picture 2 1 7) /\
    (top = Toy.picture 2 3 9 /\ bottom = Toy.picture 2 1 7 \/
     top = Toy.picture 2 1 7 /\ bottom = Toy.picture 2 3 9) /\
    shows strip 0 top /\ shows strip (Dy top) bottom.
Proof.
  apply (proj2 (proj2 (decode_failure_skipped (sorter := insertion_sorter)
                         (codecs := tagged_codecs)))
           (Toy.disk_of Toy.one_corrupt) "comic.cbz"%string Toy.one_corrupt
           (Toy.entry "02.png" ["P"%byte; x02; x03; x09])
           (Toy.entry "01.jpg" ["J"%byte; x02; x01; x07])
           (Toy.entry "03.png" ["?"%byte; x02])).
  - reflexivity.
  - apply Permutation_cons_append.
  - reflexivity.
  - reflexivity.
  - reflexivity.
  - reflexivity.
  - reflexivity.
  - vm_compute. repeat split; discriminate.
Defined.

(** C8.  On the bytes of a Candidate Entry [decodeImage] is the walk over
    the JPEG, PNG and WebP decoders in that order that the specification
    describes: the decoders it calls are an initial part of that list, so
    none is called twice; the first one that succeeds gives the image and
    the format name, whatever the later ones would say; when all three
    fail the result is the error, which the loop logs under the name of
    this entry and survives with its strip unchanged.  The result depends
    on the bytes alone: two Candidate Entries with the same bytes fare
    alike whatever their names. *)
Theorem decode_priority {codecs : Codecs} (data : bytes) :
  decodeImage (bytes_NewReader data) =
    (let '(tried, r) :=
       probe [(JPEG, jpeg_Decode); (PNG, png_Decode); (WebP, webp_Decode)] data in
     (tried,
      match r with
      | Some (f, img) => inr (img, format_name f)
      | None => inl ErrUnsupportedFormat
      end)) /\
  (exists rest, fst (decodeImage (bytes_NewReader data)) ++ rest = [JPEG; PNG; WebP]) /\
  NoDup (fst (decodeImage (bytes_NewReader data))) /\
  (forall img, jpeg_Decode data = Some img ->
     decodeImage (bytes_NewReader data) = ([JPEG], inr (img, "jpeg"%string))) /\
  (forall img, jpeg_Decode data = None -> png_Decode data = Some img ->
     decodeImage (bytes_NewReader data) = ([JPEG; PNG], inr (img, "png"%string))) /\
  (forall img, jpeg_Decode data = None -> png_Decode data = None ->
     webp_Decode data = Some img ->
     decodeImage (bytes_NewReader data) =
       ([JPEG; PNG; WebP], inr (img, "webp"%string))) /\
  (jpeg_Decode data = None -> png_Decode data = None -> webp_Decode data = None ->
     decodeImage (bytes_NewReader data) =
       ([JPEG; PNG; WebP], inl ErrUnsupportedFormat) /\
     forall st f, isImageFile (Name f) = true -> contents f = Some data ->
       visit st f = ([LogDecodeError (Name f) ErrUnsupportedFormat], Ok st)) /\
  (forall st f1 f2,
     isImageFile (Name f1) = true -> isImageFile (Name f2) = true ->
     contents f1 = Some data -> contents f2 = Some data ->
     result (visit st f1) = result (visit st f2)).
Proof.
  assert (forall st f1 f2,
            isImageFile (Name f1) = true -> isImageFile (Name f2) = true ->
            contents f1 = Some data -> contents f2 = Some data ->
            result (visit st f1) = result (visit st f2)) as Hnames.
  { intros st f1 f2 H1 H2 C1 C2.
    assert (forall f, isImageFile (Name f) = true -> contents f = Some data ->
              result (visit st f) =
              Ok (match snd (decodeImage (bytes_NewReader data)) with
                  | inl _ => st
                  | inr (img, _) => offer st img
                  end)) as Hvisit.
    { intros f Hf Cf. rewrite visit_readable by (unfold unreadable; now rewrite Cf, andb_false_r).
      unfold decoded. rewrite Hf, Cf.
      now destruct (snd (decodeImage (bytes_NewReader data))) as [e|[i n]]. }
    now rewrite (Hvisit f1), (Hvisit f2). }
  assert (jpeg_Decode data = None -> png_Decode data = None ->
          webp_Decode data = None ->
          forall st f, isImageFile (Name f) = true -> contents f = Some data ->
            visit st f = ([LogDecodeError (Name f) ErrUnsupportedFormat], Ok st))
    as Hlog.
  { intros Ej Ep Ew st f Hf Cf. unfold visit, io_ReadAll. rewrite Hf.
    unfold contents in Cf. destruct (Open f) as [|rc]; [discriminate|].
    destruct (failure rc); [discriminate|]. injection Cf as Cf.
    unfold decodeImage, bytes_NewReader, io_ReadAll. cbn [delivered failure].
    rewrite Cf, Ej, Ep, Ew. reflexivity. }
  unfold decodeImage at 1 2 3 4 5 6 7, bytes_NewReader, io_ReadAll.
  cbn [delivered failure probe].
  destruct (jpeg_Decode data) as [ij|] eqn:Ej;
    [|destruct (png_Decode data) as [ip|] eqn:Ep;
      [|destruct (webp_Decode data) as [iw|] eqn:Ew]];
    cbn [fst snd format_name].
  all: split; [reflexivity|].
  all: split;
    [first [ now exists [PNG; WebP] | now exists [WebP] | now exists [] ]|].
  all: split; [repeat constructor; cbn; intuition discriminate|].
  all: repeat split; try congruence; try exact Hnames.
  now apply Hlog.
Qed.

Lemma decode_priority_witness :
  decodeImage (codecs := tagged_codecs)
    (bytes_NewReader ["B"%byte; x02; x01; x07]) =
  ([JPEG], inr (Toy.picture 2 1 7, "jpeg"%string)).
Proof.
  apply (proj1 (proj2 (proj2 (proj2
           (decode_priority (codecs := tagged_codecs)
              ["B"%byte; x02; x01; x07]))))).
  reflexivity.
Defined.

(** * Worked examples *)

Example isImageFile_upper : isImageFile "001.JPG" = true.
Proof. reflexivity. Qed.

Example isImageFile_inner_dot : isImageFile "page.png.txt" = false.
Proof. reflexivity. Qed.

Example isImageFile_dir_dot : isImageFile "ch.png/notes" = false.
Proof. reflexivity. Qed.

Example isImageFile_nested : isImageFile "ch1/002.WebP" = true.
Proof. reflexivity. Qed.

Example int_add_wraps : GoInt.add GoInt.int_max 1 = GoInt.int_min.
Proof. reflexivity. Qed.

(** Bytes both the JPEG and the PNG decoder accept are decoded as JPEG,
    and the PNG decoder is not called. *)
Example ambiguous_bytes_are_jpeg :
  decodeImage (codecs := tagged_codecs)
    (bytes_NewReader ["B"%byte; x02; x01; x07]) =
  ([JPEG], inr (Toy.picture 2 1 7, "jpeg"%string)).
Proof. reflexivity. Qed.

Example unknown_bytes_try_all :
  decodeImage (codecs := tagged_codecs) (bytes_NewReader ["?"%byte; x02]) =
  ([JPEG; PNG; WebP], inl ErrUnsupportedFormat).
Proof. reflexivity. Qed.

(** The log of the loop over pages of widths 1 and 2. *)
Example mismatch_is_logged :
  logged (range_files (codecs := tagged_codecs)
            (sort_Slice (Sorter := insertion_sorter) Toy.two_widths) empty_strip) =
  [ LogDecoded "1.png" "png"; LogDecoded "2.png" "png"; LogSkip "2.png" 2 1 ].
Proof. reflexivity. Qed.

Example decode_error_is_logged :
  logged (visit (codecs := tagged_codecs) empty_strip
            (Toy.entry "03.png" ["?"%byte; x02])) =
  [ LogDecodeError "03.png" ErrUnsupportedFormat ].
Proof. reflexivity. Qed.

(** The strip of [Toy.two_pages]: "01.jpg" (one row) lies above "02.png"
    (three rows) although the archive stores it second. *)
Example two_pages_pixels :
  exists strip,
    result (CreateWebtoonStrip (sorter := insertion_sorter)
              (codecs := tagged_codecs) (Toy.disk_of Toy.two_pages) "comic.cbz")
      = Ok strip /\
    At strip 1 0 = drawn (At (Toy.picture 2 1 7) 1 0) /\
    At strip 1 3 = drawn (At (Toy.picture 2 3 9) 1 2) /\
    At strip 1 4 = transparent.
Proof. eexists. split; [reflexivity|]. repeat split. Qed.

(** A page of width 0 takes its row of the strip and leaves it blank. *)
Example zero_width_row_is_blank :
  exists strip,
    result (CreateWebtoonStrip (sorter := insertion_sorter)
              (codecs := tagged_codecs) (Toy.disk_of Toy.zero_first) "comic.cbz")
      = Ok strip /\
    Dx strip = 2 /\ Dy strip = 4 /\
    At strip 0 0 = transparent /\ At strip 1 0 = transparent /\
    At strip 1 1 = drawn (At (Toy.picture 2 3 0) 1 0).
Proof. eexists. split; [reflexivity|]. repeat split. Qed.

(** * Further properties of [isImageFile] and [filepath.Ext] *)

(** The two bytes at which the loop of [filepath.Ext] stops. *)
Definition stops_Ext (c : ascii) : bool :=
  Ascii.eqb c "/"%char || Ascii.eqb c "."%char.

Fixpoint has_slash (s : list ascii) : bool :=
  match s with
  | [] => false
  | c :: rest => Ascii.eqb c "/"%char || has_slash rest
  end.

(** The four extensions [isImageFile] compares with. *)
Definition image_extensions : list string :=
  [".jpg"; ".jpeg"; ".png"; ".webp"]%string.

Lemma list_ascii_app s t :
  list_ascii_of_string (s ++ t) = list_ascii_of_string s ++ list_ascii_of_string t.
Proof. induction s as [|c s IH]; cbn; [reflexivity|now rewrite IH]. Qed.

Lemma string_of_list_app l m :
  string_of_list_ascii (l ++ m) =
  (string_of_list_ascii l ++ string_of_list_ascii m)%string.
Proof. induction l as [|c l IH]; cbn; [reflexivity|now rewrite IH]. Qed.

Lemma list_ascii_ToLower s :
  list_ascii_of_string (strings_ToLower s) = map lower_ascii (list_ascii_of_string s).
Proof. induction s as [|c s IH]; cbn; [reflexivity|now rewrite IH]. Qed.

Lemma string_of_list_ToLower l :
  strings_ToLower (string_of_list_ascii l) = string_of_list_ascii (map lower_ascii l).
Proof. induction l as [|c l IH]; cbn; [reflexivity|now rewrite IH]. Qed.

Lemma lower_ascii_slash c :
  Ascii.eqb (lower_ascii c) "/"%char = Ascii.eqb c "/"%char.
Proof. destruct c as [[] [] [] [] [] [] [] []]; reflexivity. Qed.

Lemma lower_ascii_dot c :
  Ascii.eqb (lower_ascii c) "."%char = Ascii.eqb c "."%char.
Proof. destruct c as [[] [] [] [] [] [] [] []]; reflexivity. Qed.

Lemma lower_ascii_idem c : lower_ascii (lower_ascii c) = lower_ascii c.
Proof. destruct c as [[] [] [] [] [] [] [] []]; reflexivity. Qed.

Lemma Ext_scan_lower r seen :
  Ext_scan (map lower_ascii r) (map lower_ascii seen) =
  map lower_ascii (Ext_scan r seen).
Proof.
  revert seen. induction r as [|c r IH]; intros seen; cbn [map Ext_scan].
  - reflexivity.
  - rewrite lower_ascii_slash, lower_ascii_dot.
    destruct (Ascii.eqb c "/"); [reflexivity|].
    destruct (Ascii.eqb c "."); [reflexivity|]. apply (IH (c :: seen)).
Qed.

Lemma Ext_ToLower s :
  filepath_Ext (strings_ToLower s) = strings_ToLower (filepath_Ext s).
Proof.
  unfold filepath_Ext. rewrite list_ascii_ToLower, <- map_rev.
  rewrite (Ext_scan_lower _ []). now rewrite string_of_list_ToLower.
Qed.

(** The scan walks over bytes other than '/' and '.'. *)
Lemma Ext_scan_walk tail r seen :
  forallb (fun c => negb (stops_Ext c)) tail = true ->
  Ext_scan (rev tail ++ r) seen = Ext_scan r (tail ++ seen).
Proof.
  revert seen. induction tail as [|c tail IH] using rev_ind; intros seen H.
  - reflexivity.
  - rewrite forallb_app in H. apply andb_true_iff in H. destruct H as [Ht Hc].
    cbn [forallb] in Hc. rewrite andb_true_r in Hc. unfold stops_Ext in Hc.
    apply negb_true_iff, orb_false_iff in Hc. destruct Hc as [H1 H2].
    rewrite rev_app_distr. cbn [rev app Ext_scan]. rewrite H1, H2.
    rewrite IH by assumption. now rewrite <- app_assoc.
Qed.

(** It never looks past a '/'. *)
Lemma Ext_scan_slash r1 r2 seen :
  Ext_scan (r1 ++ "/"%char :: r2) seen = Ext_scan r1 seen.
Proof.
  revert seen. induction r1 as [|c r1 IH]; intros seen; cbn [app Ext_scan].
  - reflexivity.
  - destruct (Ascii.eqb c "/"); [reflexivity|].
    destruct (Ascii.eqb c "."); [reflexivity|]. apply IH.
Qed.

(** What it returns is a suffix of what it has walked over, free of '/'
    and, when not empty, a '.' followed by bytes other than '.'. *)
Lemma Ext_scan_shape r seen :
  forallb (fun c => negb (stops_Ext c)) seen = true ->
  (exists pre, rev r ++ seen = pre ++ Ext_scan r seen) /\
  (Ext_scan r seen = [] \/
   exists tail, Ext_scan r seen = "."%char :: tail /\
                forallb (fun c => negb (stops_Ext c)) tail = true).
Proof.
  revert seen. induction r as [|c r IH]; intros seen Hseen; cbn [rev Ext_scan].
  - split; [exists seen; now rewrite app_nil_r|now left].
  - destruct (Ascii.eqb_spec c "/") as [->|Hs].
    { split; [eexists; now rewrite app_nil_r|now left]. }
    destruct (Ascii.eqb_spec c ".") as [->|Hd].
    { split; [exists (rev r); now rewrite <- app_assoc|right; now exists seen]. }
    rewrite <- app_assoc. cbn [app]. apply IH. cbn [forallb].
    rewrite Hseen, andb_true_r. unfold stops_Ext.
    apply negb_true_iff, orb_false_iff.
    split; now apply Ascii.eqb_neq.
Qed.

Lemma has_slash_stops l :
  forallb (fun c => negb (stops_Ext c)) l = true -> has_slash l = false.
Proof.
  induction l as [|c l IH]; cbn [forallb has_slash]; [reflexivity|].
  intros H. apply andb_true_iff in H. destruct H as [Hc Hl].
  unfold stops_Ext in Hc. apply negb_true_iff, orb_false_iff in Hc.
  destruct Hc as [-> _]. now apply IH.
Qed.

Lemma forallb_lower l :
  forallb (fun c => negb (stops_Ext c)) (map lower_ascii l) =
  forallb (fun c => negb (stops_Ext c)) l.
Proof.
  induction l as [|c l IH]; cbn [map forallb]; [reflexivity|].
  unfold stops_Ext at 1 3. now rewrite lower_ascii_slash, lower_ascii_dot, IH.
Qed.

Lemma Ext_of_dot_suffix stem tail :
  forallb (fun c => negb (stops_Ext c)) tail = true ->
  filepath_Ext (stem ++ string_of_list_ascii ("."%char :: tail)) =
  string_of_list_ascii ("."%char :: tail).
Proof.
  intros H. unfold filepath_Ext.
  rewrite list_ascii_app, list_ascii_of_string_of_list_ascii, rev_app_distr.
  cbn [rev]. rewrite <- app_assoc. cbn [app].
  rewrite Ext_scan_walk by assumption. cbn [Ext_scan Ascii.eqb].
  cbn. now rewrite app_nil_r.
Qed.

Lemma Ext_suffix path : exists stem, path = (stem ++ filepath_Ext path)%string.
Proof.
  unfold filepath_Ext.
  destruct (Ext_scan_shape (rev (list_ascii_of_string path)) [] eq_refl)
    as [[pre E] _].
  rewrite rev_involutive, app_nil_r in E. exists (string_of_list_ascii pre).
  rewrite <- string_of_list_app, <- E. now rewrite string_of_list_ascii_of_string.
Qed.

Lemma isImageFile_In path :
  isImageFile path = true <->
  In (strings_ToLower (filepath_Ext path)) image_extensions.
Proof.
  unfold isImageFile, image_extensions. cbn [In].
  rewrite !orb_true_iff, !String.eqb_eq. intuition congruence.
Qed.

(** X1.  [filepath.Ext] returns the part of the path from the last '.' of
    its final element, and the empty string when that element has no '.';
    in either case a suffix of the path. *)
Theorem Ext_is_last_dot_of_final_element (stem tail : string) :
  forallb (fun c => negb (stops_Ext c)) (list_ascii_of_string tail) = true ->
  filepath_Ext (stem ++ "." ++ tail) = ("." ++ tail)%string /\
  filepath_Ext (stem ++ "/" ++ tail) = ""%string /\
  filepath_Ext tail = ""%string /\
  forall path, exists front, path = (front ++ filepath_Ext path)%string.
Proof.
  intros H. split; [|split; [|split]].
  - pose proof (Ext_of_dot_suffix stem (list_ascii_of_string tail) H) as E.
    cbn [string_of_list_ascii] in E.
    rewrite string_of_list_ascii_of_string in E. exact E.
  - unfold filepath_Ext. rewrite list_ascii_app. cbn [list_ascii_of_string append].
    rewrite rev_app_distr. cbn [rev]. rewrite <- app_assoc. cbn [app].
    rewrite Ext_scan_slash.
    rewrite <- (app_nil_r (rev (list_ascii_of_string tail))).
    now rewrite Ext_scan_walk.
  - unfold filepath_Ext.
    rewrite <- (app_nil_r (rev (list_ascii_of_string tail))).
    now rewrite Ext_scan_walk.
  - apply Ext_suffix.
Qed.

Lemma Ext_is_last_dot_of_final_element_witness :
  filepath_Ext ("vol.1/page" ++ "." ++ "JPG") = ("." ++ "JPG")%string /\
  filepath_Ext ("vol.1/page" ++ "/" ++ "JPG") = ""%string /\
  filepath_Ext "JPG" = ""%string /\
  forall path, exists front, path = (front ++ filepath_Ext path)%string.
Proof.
  apply (Ext_is_last_dot_of_final_element "vol.1/page" "JPG"). reflexivity.
Defined.

(** X2.  [isImageFile] does not tell names apart that differ in the case
    of ASCII letters only. *)
Theorem isImageFile_ignores_case (name name' : string) :
  strings_ToLower name = strings_ToLower name' ->
  isImageFile name = isImageFile name'.
Proof.
  intros H. unfold isImageFile.
  now rewrite <- !Ext_ToLower, H.
Qed.

Lemma isImageFile_ignores_case_witness :
  isImageFile "Ch1/Page.PnG" = isImageFile "ch1/page.png".
Proof.
  apply (isImageFile_ignores_case "Ch1/Page.PnG" "ch1/page.png"). reflexivity.
Defined.

(** X3.  [isImageFile] accepts exactly the names that end in ".jpg",
    ".jpeg", ".png" or ".webp" written in any mix of upper and lower
    case, whatever stands before. *)
Theorem isImageFile_iff_suffix (name : string) :
  isImageFile name = true <->
  exists stem ext,
    name = (stem ++ ext)%string /\ In (strings_ToLower ext) image_extensions.
Proof.
  rewrite isImageFile_In. split.
  - intros H. destruct (Ext_suffix name) as [stem E]. now exists stem, (filepath_Ext name).
  - intros (stem & ext & -> & H).
    assert (exists tail, ext = string_of_list_ascii ("."%char :: tail) /\
                         forallb (fun c => negb (stops_Ext c)) tail = true)
      as (tail & -> & Htail).
    { assert (exists tail,
                map lower_ascii (list_ascii_of_string ext) = "."%char :: tail /\
                forallb (fun c => negb (stops_Ext c)) tail = true)
        as (ltail & E & Hl).
      { rewrite <- list_ascii_ToLower. unfold image_extensions in H.
        cbn [In] in H.
        destruct H as [<-|[<-|[<-|[<-|[]]]]]; eexists; split; reflexivity. }
      destruct (list_ascii_of_string ext) as [|c tail] eqn:El; [discriminate|].
      cbn [map] in E. injection E as Ec Et.
      assert (c = "."%char) as ->.
      { apply Ascii.eqb_eq. rewrite <- lower_ascii_dot, Ec. reflexivity. }
      exists tail. split.
      - now rewrite <- El, string_of_list_ascii_of_string.
      - now rewrite <- forallb_lower, Et. }
    now rewrite Ext_of_dot_suffix.
Qed.

(** X4.  [isImageFile] looks at the final element of a path only: the
    directories before it, dots included, do not matter. *)
Theorem isImageFile_final_element (dir base : string) :
  isImageFile (dir ++ "/" ++ base) = isImageFile base.
Proof.
  unfold isImageFile, filepath_Ext.
  rewrite list_ascii_app. cbn [list_ascii_of_string append].
  rewrite rev_app_distr. cbn [rev]. rewrite <- app_assoc. cbn [app].
  now rewrite Ext_scan_slash.
Qed.

(** * Further properties of the loop over the entries *)

(** Kinds of log lines. *)
Definition is_decoded_line (l : LogLine) : bool :=
  match l with LogDecoded _ _ => true | _ => false end.

Definition is_error_line (l : LogLine) : bool :=
  match l with LogDecodeError _ _ => true | _ => false end.

Definition is_skip_line (l : LogLine) : bool :=
  match l with LogSkip _ _ _ => true | _ => false end.

Definition candidate (file : File) : bool := isImageFile (Name file).

(** Concrete archives for the properties below. *)
Module Sample.

(** Pages of width 2 with a narrower page, a broken page and two entries
    that are no pages, stored in no particular order. *)
Definition mixed : list File :=
  [ Toy.entry "04.png" ["P"%byte; x02; x02; x04];
    Toy.entry "ComicInfo.xml" ["<"%byte];
    Toy.entry "02.jpg" ["J"%byte; x01; x05; x02];
    Toy.entry "03.webp" ["?"%byte];
    Toy.entry "01.png" ["P"%byte; x02; x03; x01];
    Toy.torn_entry "Thumbs.db" [] ].

(** The same archive with its entries stored in another order. *)
Definition mixed_reordered : list File :=
  [ Toy.torn_entry "Thumbs.db" [];
    Toy.entry "01.png" ["P"%byte; x02; x03; x01];
    Toy.entry "02.jpg" ["J"%byte; x01; x05; x02];
    Toy.entry "03.webp" ["?"%byte];
    Toy.entry "04.png" ["P"%byte; x02; x02; x04];
    Toy.entry "ComicInfo.xml" ["<"%byte] ].

(** The same archive without the entries that are no pages. *)
Definition mixed_pages_only : list File :=
  [ Toy.entry "04.png" ["P"%byte; x02; x02; x04];
    Toy.entry "02.jpg" ["J"%byte; x01; x05; x02];
    Toy.entry "03.webp" ["?"%byte];
    Toy.entry "01.png" ["P"%byte; x02; x03; x01] ].

(** A good page, then a page that cannot be opened, then more pages. *)
Definition locked : list File :=
  [ Toy.entry "01.png" ["P"%byte; x02; x03; x01];
    mkFile "02.png" (inl "zip: unsupported compression algorithm"%string);
    Toy.entry "03.png" ["P"%byte; x02; x03; x01];
    Toy.torn_entry "04.png" [] ].

End Sample.

Lemma bind_ret_l {T U} (v : T) (k : T -> M U) : bind (ret v) k = k v.
Proof. unfold bind, ret. now destruct (k v). Qed.

Lemma bind_assoc {T U V} (m : M T) (k : T -> M U) (h : U -> M V) :
  bind (bind m k) h = bind m (fun v => bind (k v) h).
Proof.
  destruct m as [w [v| |]]; cbn [bind]; try reflexivity.
  destruct (k v) as [w' [u| |]]; cbn [bind]; try reflexivity.
  destruct (h u) as [w'' o]. now rewrite app_assoc.
Qed.

Lemma bind_ext {T U} (m : M T) (k k' : T -> M U) :
  (forall v, k v = k' v) -> bind m k = bind m k'.
Proof. intros H. destruct m as [w [v| |]]; cbn [bind]; auto. now rewrite H. Qed.

Lemma logged_bind {T U} (m : M T) (k : T -> M U) :
  logged (bind m k) =
  logged m ++ match result m with Ok v => logged (k v) | _ => [] end.
Proof.
  destruct m as [w [v|e|]]; cbn; try now rewrite app_nil_r.
  now destruct (k v).
Qed.

Lemma range_files_app_M {codecs : Codecs} l1 l2 st :
  range_files (l1 ++ l2) st = bind (range_files l1 st) (range_files l2).
Proof.
  revert st. induction l1 as [|f l1 IH]; intros st; cbn [app range_files].
  - now rewrite bind_ret_l.
  - rewrite bind_assoc. apply bind_ext. intros st'. apply IH.
Qed.

Section LoopFacts.

Context {codecs : Codecs}.

Lemma decodeImage_bytes_error data e :
  snd (decodeImage (bytes_NewReader data)) = inl e -> e = ErrUnsupportedFormat.
Proof.
  unfold decodeImage, bytes_NewReader, io_ReadAll. cbn [delivered failure].
  destruct (jpeg_Decode data); [discriminate|].
  destruct (png_Decode data); [discriminate|].
  destruct (webp_Decode data); [discriminate|]. now intros [= <-].
Qed.

(** The loop body, case by case, with the lines it logs. *)
Lemma visit_cases st file :
  candidate file = false /\ visit st file = ([], Ok st) \/
  (unreadable file = true /\ exists e, visit st file = ([], Err e)) \/
  undecodable file = true /\
    visit st file = ([LogDecodeError (Name file) ErrUnsupportedFormat], Ok st) \/
  exists img fmt,
    decoded file = Some img /\ unreadable file = false /\
    undecodable file = false /\
    ((commonWidth st = 0 \/ Dx img = commonWidth st) /\
     visit st file = ([LogDecoded (Name file) fmt], Ok (offer st img)) \/
     commonWidth st <> 0 /\ Dx img <> commonWidth st /\ offer st img = st /\
     visit st file =
       ([LogDecoded (Name file) fmt;
         LogSkip (Name file) (Dx img) (commonWidth st)], Ok st)).
Proof.
  unfold candidate, unreadable, undecodable, decoded, contents, visit, io_ReadAll,
    offer.
  destruct (isImageFile (Name file)); [|now left]. right.
  destruct (Open file) as [c|rc];
    [left; split; [reflexivity|eexists; reflexivity]|].
  destruct (failure rc) as [c|];
    [left; split; [reflexivity|eexists; reflexivity]|]. right.
  destruct (snd (decodeImage (bytes_NewReader (delivered rc)))) as [e|[img fmt]] eqn:E.
  - left. apply decodeImage_bytes_error in E. subst e. now split.
  - right. exists img, fmt. repeat split.
    destruct (Z.eqb_spec (commonWidth st) 0) as [E0|N0]; [left; split; auto|].
    destruct (Z.eqb_spec (Dx img) (commonWidth st)) as [Ew|Nw];
      [left; split; auto|right; repeat split; auto].
Qed.

Lemma range_files_candidates l st :
  range_files l st = range_files (filter candidate l) st.
Proof.
  revert st. induction l as [|f l IH]; intros st; cbn [filter range_files].
  - reflexivity.
  - destruct (candidate f) eqn:E; cbn [range_files].
    + apply bind_ext. intros st'. apply IH.
    + unfold candidate in E. rewrite visit_ignored by assumption.
      rewrite bind_ret_l. apply IH.
Qed.

(** X5.  Entries that are no Candidate Entries play no part in the loop:
    they are neither opened nor logged, so two lists of entries with the
    same Candidate Entries in the same order run alike, log included. *)
Theorem other_entries_are_inert (l l' : list File) (st : Strip) :
  filter candidate l = filter candidate l' ->
  range_files l st = range_files l' st.
Proof.
  intros H. now rewrite (range_files_candidates l), (range_files_candidates l'), H.
Qed.

(** X6.  Every "Error decoding file" line of the loop, whether the loop
    completes or not, carries the error "unsupported image format" and
    the name of a Candidate Entry whose bytes were read and rejected by
    all three decoders: the read error of [decodeImage] never shows,
    because the loop hands it bytes already read. *)
Theorem decode_error_lines (l : list File) (st : Strip) (name : string) (e : error) :
  In (LogDecodeError name e) (logged (range_files l st)) ->
  e = ErrUnsupportedFormat /\
  exists file, In file l /\ Name file = name /\ undecodable file = true.
Proof.
  revert st. induction l as [|f l IH]; intros st; cbn [range_files].
  - intros [].
  - rewrite logged_bind. intros H. apply in_app_or in H.
    assert (In (LogDecodeError name e) (logged (visit st f)) ->
            e = ErrUnsupportedFormat /\ Name f = name /\ undecodable f = true)
      as Hhere.
    { destruct (visit_cases st f)
        as [[_ ->]|[[_ [e' ->]]|[[Hu ->]|(img & fmt & _ & _ & _ &
             [[_ ->]|(_ & _ & _ & ->)])]]]; cbn [logged fst In]; intros Hin;
        repeat (destruct Hin as [Hin|Hin]); try contradiction;
        try discriminate.
      injection Hin as <- <-. auto. }
    destruct H as [H|H].
    + destruct (Hhere H) as (? & ? & ?). split; [assumption|].
      exists f. split; [now left|now split].
    + destruct (result (visit st f)) as [st'| |]; try contradiction.
      destruct (IH _ H) as (He & g & Hg & Hn & Hu). split; [assumption|].
      exists g. split; [now right|now split].
Qed.

End LoopFacts.

Lemma other_entries_are_inert_witness :
  range_files (codecs := tagged_codecs) Sample.mixed empty_strip =
  range_files (codecs := tagged_codecs) Sample.mixed_pages_only empty_strip.
Proof.
  apply (other_entries_are_inert (codecs := tagged_codecs)
           Sample.mixed Sample.mixed_pages_only empty_strip).
  reflexivity.
Defined.

Lemma decode_error_lines_witness :
  ErrUnsupportedFormat = ErrUnsupportedFormat /\
  exists file,
    In file Sample.mixed_pages_only /\ Name file = "03.webp"%string /\
    undecodable (codecs := tagged_codecs) file = true.
Proof.
  apply (decode_error_lines (codecs := tagged_codecs)
           Sample.mixed_pages_only empty_strip "03.webp" ErrUnsupportedFormat).
  vm_compute. do 3 right. left. reflexivity.
Defined.

Lemma offer_accepts st img :
  commonWidth st = 0 \/ Dx img = commonWidth st ->
  offer st img = push st (Dx img) img.
Proof.
  intros H. unfold offer.
  destruct (Z.eqb_spec (commonWidth st) 0); [reflexivity|].
  destruct H as [|H]; [contradiction|]. now rewrite H, Z.eqb_refl.
Qed.

Section LoopAccounts.

Context {codecs : Codecs}.

(** X7.  When the loop completes, its log accounts for every Candidate
    Entry: one "Successfully decoded" line per decoded page, one "Error
    decoding" line per entry no decoder accepts, and one "Skipping" line
    per decoded page that is not in the strip. *)
Theorem log_accounts_for_pages (l : list File) (st st' : Strip) :
  result (range_files l st) = Ok st' ->
  List.length (filter is_decoded_line (logged (range_files l st))) =
    List.length (pages l) /\
  List.length (filter is_error_line (logged (range_files l st))) =
    List.length (filter undecodable l) /\
  (List.length (filter is_skip_line (logged (range_files l st))) +
   List.length (images st') =
   List.length (images st) + List.length (pages l))%nat.
Proof.
  revert st. induction l as [|f l IH]; intros st; cbn [range_files].
  - intros [= <-]. cbn. repeat split. lia.
  - rewrite result_bind, logged_bind. cbn [pages filter].
    destruct (visit_cases st f)
      as [[Hc E]|[[_ [e' E]]|[[Hu E]|(img & fmt & Hd & _ & Hnu &
           [[Hacc E]|(_ & _ & _ & E)])]]]; rewrite E; cbn [result logged fst snd];
      try discriminate; intros Hrun; destruct (IH _ Hrun) as (I1 & I2 & I3);
      rewrite !filter_app, !length_app; cbn [filter is_decoded_line
        is_error_line is_skip_line List.length app].
    + assert (decoded f = None) as -> by (unfold decoded; unfold candidate in Hc;
                                           now rewrite Hc).
      assert (undecodable f = false) as ->
        by (unfold undecodable; unfold candidate in Hc; now rewrite Hc).
      repeat split; lia.
    + rewrite (proj2 (undecodable_readable f Hu)), Hu. cbn [List.length].
      repeat split; lia.
    + rewrite Hd, Hnu. cbn [List.length]. rewrite (offer_accepts _ _ Hacc) in *.
      cbn [images push] in I3. rewrite length_app in I3. cbn [List.length] in I3.
      repeat split; lia.
    + rewrite Hd, Hnu. cbn [List.length]. repeat split; lia.
Qed.

End LoopAccounts.

Lemma log_accounts_for_pages_witness :
  List.length (filter is_decoded_line
    (logged (range_files (codecs := tagged_codecs)
               Sample.mixed_pages_only empty_strip))) =
    List.length (pages (codecs := tagged_codecs) Sample.mixed_pages_only) /\
  List.length (filter is_error_line
    (logged (range_files (codecs := tagged_codecs)
               Sample.mixed_pages_only empty_strip))) =
    List.length (filter (undecodable (codecs := tagged_codecs))
                   Sample.mixed_pages_only) /\
  (List.length (filter is_skip_line
     (logged (range_files (codecs := tagged_codecs)
                Sample.mixed_pages_only empty_strip))) +
   List.length (images (fold_left offer
                  (pages (codecs := tagged_codecs) Sample.mixed_pages_only)
                  empty_strip)) =
   List.length (images empty_strip) +
   List.length (pages (codecs := tagged_codecs) Sample.mixed_pages_only))%nat.
Proof.
  apply (log_accounts_for_pages (codecs := tagged_codecs)
           Sample.mixed_pages_only empty_strip).
  reflexivity.
Defined.

Section LoopInvariant.

Context {sorter : Sorter} {codecs : Codecs}.

(** The invariant of the strip variables: [done] are the pages offered so
    far. *)
Let kept_widths (st : Strip) (done : list Image) : Prop :=
  (forall img, In img (images st) ->
     In img done /\ (Dx img = commonWidth st \/ Dx img = 0)) /\
  (commonWidth st = 0 -> images st = done).

Lemma kept_widths_fold imgs st done :
  kept_widths st done -> kept_widths (fold_left offer imgs st) (done ++ imgs).
Proof.
  revert st done. induction imgs as [|i imgs IH]; intros st done H.
  - now rewrite app_nil_r.
  - cbn [fold_left]. replace (done ++ i :: imgs) with ((done ++ [i]) ++ imgs)
      by now rewrite <- app_assoc.
    apply IH. destruct H as [Hin Hzero]. unfold offer.
    destruct (Z.eqb_spec (commonWidth st) 0) as [E0|N0].
    + split; cbn [images commonWidth push].
      * intros img Himg. apply in_app_or in Himg. destruct Himg as [Himg|[<-|[]]].
        -- destruct (Hin img Himg) as [Hd Hw]. split; [apply in_or_app; now left|].
           right. rewrite E0 in Hw. now destruct Hw.
        -- split; [apply in_or_app; right; now left|now left].
      * intros _. now rewrite (Hzero E0).
    + destruct (Z.eqb_spec (Dx i) (commonWidth st)) as [Ew|Nw].
      * split; cbn [images commonWidth push]; [|contradiction].
        intros img Himg. apply in_app_or in Himg. destruct Himg as [Himg|[<-|[]]].
        -- destruct (Hin img Himg) as [Hd Hw]. split; [apply in_or_app; now left|auto].
        -- split; [apply in_or_app; right; now left|now left].
      * split; [|contradiction]. intros img Himg.
        destruct (Hin img Himg) as [Hd Hw]. split; [apply in_or_app; now left|auto].
Qed.

(** X8.  When the loop over a list of entries completes, the strip
    variables satisfy: the counted height is the sum of the heights of the
    accepted pages (modulo 2^64); the common width is a width an [int]
    holds; every accepted page is a decoded page of the list and has the
    common width or width 0; and while the common width is still 0, every
    decoded page has been accepted. *)
Theorem strip_variables_invariant (l : list File) (st : Strip) :
  result (range_files l empty_strip) = Ok st ->
  totalHeight st = GoInt.wrap (rows (images st)) /\
  0 <= commonWidth st <= GoInt.int_max /\
  (forall img, In img (images st) ->
     In img (pages l) /\ (Dx img = commonWidth st \/ Dx img = 0)) /\
  (commonWidth st = 0 -> images st = pages l) /\
  (images st = [] <-> pages l = []).
Proof.
  intros Hrun. apply range_files_Ok in Hrun. subst st.
  split; [apply counted_fold, counted_empty|].
  split; [apply width_fold; [apply pages_shape|];
          cbn; pose proof int_max_pos; lia|].
  destruct (kept_widths_fold (pages l) empty_strip []) as [Hin Hzero].
  { split; [intros img []|reflexivity]. }
  cbn [app] in Hin, Hzero. repeat split; auto; try apply Hin; auto;
    apply no_page_kept_iff.
Qed.

(** X9.  The first Candidate Entry, in the order of the sorted names, that
    cannot be opened or read ends [CreateWebtoonStrip] with an error that
    carries its name; the entries after it are not visited, and what was
    logged for the entries before it is all that is logged. *)
Theorem first_unreadable_entry_aborts (disk : Disk) (path : string)
    (files l1 l2 : list File) (file : File) :
  disk path = inr files ->
  sort_Slice files = l1 ++ file :: l2 ->
  Forall (fun f => unreadable f = false) l1 ->
  unreadable file = true ->
  exists cause,
    (CreateWebtoonStrip disk path =
       (logged (range_files l1 empty_strip), Err (ErrOpeningFile (Name file) cause)) /\
     Open file = inl cause) \/
    (CreateWebtoonStrip disk path =
       (logged (range_files l1 empty_strip), Err (ErrReadingFile (Name file) cause)) /\
     exists rc, Open file = inr rc /\ failure rc = Some cause).
Proof.
  intros Hdisk Esorted Hread Hbad.
  pose proof (range_files_readable l1 empty_strip Hread) as Hrun.
  set (st1 := fold_left offer (pages l1) empty_strip) in *.
  assert (range_files l1 empty_strip = (logged (range_files l1 empty_strip), Ok st1))
    as E1.
  { destruct (range_files l1 empty_strip) as [w o]. cbn in *. now subst o. }
  unfold CreateWebtoonStrip. rewrite Hdisk, Esorted, range_files_app_M.
  cbn [range_files].
  destruct (visit_unreadable st1 file Hbad) as (c & [[Ev Ho]|[Ev Hr]]);
    exists c; [left|right]; (split; [|assumption]);
    rewrite E1; cbn [bind]; rewrite Ev; cbn [fail bind]; now rewrite app_nil_r.
Qed.

End LoopInvariant.

Lemma strip_variables_invariant_witness :
  let l := sort_Slice (Sorter := insertion_sorter) Sample.mixed in
  let st := fold_left offer (pages (codecs := tagged_codecs) l) empty_strip in
  totalHeight st = GoInt.wrap (rows (images st)) /\
  0 <= commonWidth st <= GoInt.int_max /\
  (forall img, In img (images st) ->
     In img (pages (codecs := tagged_codecs) l) /\
     (Dx img = commonWidth st \/ Dx img = 0)) /\
  (commonWidth st = 0 -> images st = pages (codecs := tagged_codecs) l) /\
  (images st = [] <-> pages (codecs := tagged_codecs) l = []).
Proof.
  apply (strip_variables_invariant (codecs := tagged_codecs)
           (sort_Slice (Sorter := insertion_sorter) Sample.mixed)).
  reflexivity.
Defined.

Lemma first_unreadable_entry_aborts_witness :
  exists cause,
    (CreateWebtoonStrip (sorter := insertion_sorter) (codecs := tagged_codecs)
       (Toy.disk_of Sample.locked) "comic.cbz" =
       (logged (range_files (codecs := tagged_codecs)
                  [Toy.entry "01.png" ["P"%byte; x02; x03; x01]] empty_strip),
        Err (ErrOpeningFile
               (Name (mkFile "02.png"
                        (inl "zip: unsupported compression algorithm"%string)))
               cause)) /\
     Open (mkFile "02.png" (inl "zip: unsupported compression algorithm"%string))
       = inl cause) \/
    (CreateWebtoonStrip (sorter := insertion_sorter) (codecs := tagged_codecs)
       (Toy.disk_of Sample.locked) "comic.cbz" =
       (logged (range_files (codecs := tagged_codecs)
                  [Toy.entry "01.png" ["P"%byte; x02; x03; x01]] empty_strip),
        Err (ErrReadingFile
               (Name (mkFile "02.png"
                        (inl "zip: unsupported compression algorithm"%string)))
               cause)) /\
     exists rc,
       Open (mkFile "02.png" (inl "zip: unsupported compression algorithm"%string))
         = inr rc /\ failure rc = Some cause).
Proof.
  apply (first_unreadable_entry_aborts (sorter := insertion_sorter)
           (codecs := tagged_codecs) (Toy.disk_of Sample.locked) "comic.cbz"
           Sample.locked
           [Toy.entry "01.png" ["P"%byte; x02; x03; x01]]
           [Toy.entry "03.png" ["P"%byte; x02; x03; x01];
            Toy.torn_entry "04.png" []]).
  - reflexivity.
  - reflexivity.
  - repeat constructor.
  - reflexivity.
Defined.

(** * The order of the archive does not matter *)

Lemma less_neither a b : less a b = false -> less b a = false -> Name a = Name b.
Proof.
  unfold less, String.ltb. rewrite (String.compare_antisym (Name b) (Name a)).
  destruct (String.compare (Name a) (Name b)) eqn:E; cbn; try discriminate.
  intros _ _. now apply String.compare_eq_iff.
Qed.

(** Two sorted arrangements of entries with distinct names are the same. *)
Lemma sorted_perm_unique l1 l2 :
  StronglySorted (fun a b => less b a = false) l1 ->
  StronglySorted (fun a b => less b a = false) l2 ->
  Permutation l1 l2 -> NoDup (map Name l1) -> l1 = l2.
Proof.
  intros H1. revert l2. induction H1 as [|a l1 Hs1 IH Ha]; intros l2 H2 P Hnd.
  - apply Permutation_nil in P. now subst.
  - destruct H2 as [|b l2 Hs2 Hb].
    { apply Permutation_sym, Permutation_nil in P. discriminate. }
    cbn [map] in Hnd. apply NoDup_cons_iff in Hnd. destruct Hnd as [Hfresh Hnd].
    assert (a = b) as <-.
    { assert (In a (b :: l2)) as [Eab|Hin2]
        by (apply (Permutation_in _ P); now left); [now symmetry|].
      assert (In b (a :: l1)) as [Eba|Hin1]
        by (apply (Permutation_in _ (Permutation_sym P)); now left);
        [assumption|].
      exfalso. apply Hfresh. rewrite Forall_forall in Ha, Hb.
      rewrite (less_neither a b (Hb a Hin2) (Ha b Hin1)).
      now apply in_map. }
    f_equal. apply IH; auto. eapply Permutation_cons_inv; eassumption.
Qed.

(** X10.  When the entry names are distinct, the result of
    [CreateWebtoonStrip], log included, does not depend on the order in
    which the archive stores its entries, nor on which sorted arrangement
    [sort.Slice] picks. *)
Theorem storage_order_is_irrelevant (sorter sorter' : Sorter) {codecs : Codecs}
    (disk disk' : Disk) (path path' : string) (files files' : list File) :
  disk path = inr files -> disk' path' = inr files' ->
  Permutation files files' ->
  NoDup (map Name files) ->
  CreateWebtoonStrip (sorter := sorter) disk path =
  CreateWebtoonStrip (sorter := sorter') disk' path'.
Proof.
  intros Hdisk Hdisk' P Hnd. unfold CreateWebtoonStrip. rewrite Hdisk, Hdisk'.
  assert (sort_Slice (Sorter := sorter) files =
          sort_Slice (Sorter := sorter') files') as ->; [|reflexivity].
  apply sorted_perm_unique; try apply sort_Slice_sorted.
  - rewrite <- (sort_Slice_perm (Sorter := sorter) files).
    now rewrite <- (sort_Slice_perm (Sorter := sorter') files').
  - assert (Permutation (map Name files)
              (map Name (sort_Slice (Sorter := sorter) files))) as Pn
      by apply Permutation_map, sort_Slice_perm.
    eapply Permutation_NoDup; eassumption.
Qed.

Lemma storage_order_is_irrelevant_witness :
  CreateWebtoonStrip (sorter := insertion_sorter) (codecs := tagged_codecs)
    (Toy.disk_of Sample.mixed) "comic.cbz" =
  CreateWebtoonStrip (sorter := insertion_sorter) (codecs := tagged_codecs)
    (Toy.disk_of Sample.mixed_reordered) "comic.cbz".
Proof.
  apply (storage_order_is_irrelevant insertion_sorter insertion_sorter
           (codecs := tagged_codecs)
           (Toy.disk_of Sample.mixed) (Toy.disk_of Sample.mixed_reordered)
           "comic.cbz" "comic.cbz" Sample.mixed Sample.mixed_reordered).
  - reflexivity.
  - reflexivity.
  - apply (Permutation_trans (isort_perm Sample.mixed)).
    apply Permutation_sym. exact (isort_perm Sample.mixed_reordered).
  - vm_compute. repeat constructor; cbn; intuition discriminate.
Defined.

(** * The strip of an archive with pages of several widths *)

Lemma row_lookup imgs y :
  Forall decoded_shape imgs -> 0 <= y < rows imgs ->
  exists pre img post,
    imgs = pre ++ img :: post /\ rows pre <= y < rows pre + Dy img.
Proof.
  intros H. revert y. induction H as [|i imgs Hi _ IH]; intros y Hy;
    cbn [rows] in *; [lia|].
  destruct (shape_Dy i Hi) as [_ Hh].
  destruct (Z_lt_le_dec y (Dy i)) as [Hlt|Hge].
  - exists [], i, imgs. cbn [rows app]. split; [reflexivity|lia].
  - destruct (IH (y - Dy i)) as (pre & img & post & -> & Hrange); [lia|].
    exists (i :: pre), img, post. cbn [rows app]. split; [reflexivity|lia].
Qed.

Section MixedWidths.

Context {sorter : Sorter} {codecs : Codecs}.

(** The strip variables when the first decoded page has a width other
    than 0: that page, then the later pages of its width. *)
Lemma fold_offer_first p1 rest :
  Dx p1 <> 0 ->
  images (fold_left offer (p1 :: rest) empty_strip) =
    p1 :: filter (fun i => Dx i =? Dx p1) rest /\
  commonWidth (fold_left offer (p1 :: rest) empty_strip) = Dx p1.
Proof.
  intros Hw. cbn [fold_left].
  assert (offer empty_strip p1 = push empty_strip (Dx p1) p1) as -> by reflexivity.
  destruct (fold_offer_fixed rest (push empty_strip (Dx p1) p1)) as [E W];
    [exact Hw|].
  now rewrite E, W.
Qed.

(** X11.  When every Candidate Entry is readable and the first decoded
    page, in name order, has a width [W] other than 0, the strip has
    width [W] and its height is the sum of the heights of that page and of
    the later decoded pages of width [W]; pages of other widths add
    nothing.  (The strip's pixel buffer can be allocated.) *)
Theorem strip_of_matching_pages (disk : Disk) (path : string)
    (files : list File) (p1 : Image) (rest : list Image) :
  disk path = inr files ->
  Forall (fun f => unreadable f = false) files ->
  pages (sort_Slice files) = p1 :: rest ->
  Dx p1 <> 0 ->
  allocatable (Dx p1) (rows (p1 :: filter (fun i => Dx i =? Dx p1) rest)) ->
  exists strip,
    result (CreateWebtoonStrip disk path) = Ok strip /\
    Dx strip = Dx p1 /\
    Dy strip = rows (p1 :: filter (fun i => Dx i =? Dx p1) rest).
Proof.
  intros Hdisk Hread Epages Hw Halloc.
  pose proof (sort_Slice_perm files) as Hperm.
  apply (unreadable_perm _ _ Hperm) in Hread.
  rewrite CreateWebtoonStrip_unfold, Hdisk, range_files_readable by assumption.
  rewrite Epages. destruct (fold_offer_first p1 rest Hw) as [Eimgs Ecw].
  set (st := fold_left offer (p1 :: rest) empty_strip) in *.
  pose proof (pages_shape (sort_Slice files)) as Hshape. rewrite Epages in Hshape.
  destruct (fold_offer_grows (p1 :: rest) empty_strip Hshape)
    as (extra & Eextra & Hextra & _). fold st in Eextra.
  cbn [images empty_strip app] in Eextra.
  destruct (strip_built st) as (blank & Hnew & HDx & HDy & _).
  - apply counted_fold, counted_empty.
  - now rewrite Eextra.
  - apply width_fold; [assumption|]. cbn. pose proof int_max_pos. lia.
  - now rewrite Eimgs, Ecw.
  - rewrite Hnew, Eimgs. rewrite Eimgs in HDx, HDy.
    eexists. split; [reflexivity|]. now rewrite HDx, HDy, Ecw.
Qed.

(** X12.  Under the same assumption on the first decoded page, a strip
    that is returned has no blank pixel: every pixel inside its bounds is
    the pixel of a decoded page of the strip's width, at the same column
    and at the row counted from that page's top.  (The rows of the decoded
    pages are countable in an [int].) *)
Theorem every_pixel_is_a_page (disk : Disk) (path : string)
    (files : list File) (strip p1 : Image) (rest : list Image) :
  disk path = inr files ->
  result (CreateWebtoonStrip disk path) = Ok strip ->
  rows (pages files) <= GoInt.int_max ->
  pages (sort_Slice files) = p1 :: rest ->
  Dx p1 <> 0 ->
  forall x y, 0 <= x < Dx strip -> 0 <= y < Dy strip ->
    exists img y0,
      In img (pages files) /\ Dx img = Dx strip /\
      y0 <= y < y0 + Dy img /\
      At strip x y = drawn (At img x (y - y0)).
Proof.
  intros Hdisk Hres Hrows Epages Hw x y Hx Hy.
  pose proof (sort_Slice_perm files) as Hperm.
  rewrite CreateWebtoonStrip_unfold, Hdisk in Hres.
  destruct (result (range_files (sort_Slice files) empty_strip))
    as [st| |] eqn:Hrun; try discriminate.
  apply range_files_Ok in Hrun. rewrite Epages in Hrun.
  destruct (fold_offer_first p1 rest Hw) as [Eimgs Ecw]. rewrite <- Hrun in Eimgs, Ecw.
  pose proof (pages_shape (sort_Slice files)) as Hshape. rewrite Epages in Hshape.
  destruct (fold_offer_grows (p1 :: rest) empty_strip Hshape)
    as (extra & Eextra & Hextra & Hle & Hin). rewrite <- Hrun in Eextra.
  cbn [images empty_strip app] in Eextra.
  rewrite (rows_perm _ _ (pages_perm _ _ Hperm)), Epages in Hrows.
  destruct (images st) as [|i0 l0] eqn:Ei; [discriminate|]. rewrite <- Ei in *.
  destruct (NewRGBA (Rect 0 0 (commonWidth st) (totalHeight st)))
    as [blank|] eqn:Hnew; [|discriminate].
  injection Hres as <-.
  destruct (strip_shape st blank) as (HDx & HDy & Hshow); auto.
  - rewrite Hrun. apply counted_fold, counted_empty.
  - now rewrite Eextra.
  - rewrite Hrun. apply width_fold; [assumption|]. cbn.
    pose proof int_max_pos. lia.
  - rewrite Eextra. lia.
  - rewrite HDx in Hx. rewrite HDy in Hy.
    assert (Forall decoded_shape (images st)) as Hs by now rewrite Eextra.
    destruct (row_lookup (images st) y Hs Hy) as (pre & img & post & E & Hrange).
    assert (In img (images st)) as Himg by (rewrite E; apply in_elt).
    assert (Dx img = commonWidth st) as Hwimg.
    { rewrite Eimgs in Himg. destruct Himg as [<-|Himg]; [now rewrite Ecw|].
      apply filter_In in Himg. destruct Himg as [_ Himg].
      apply Z.eqb_eq in Himg. now rewrite Ecw. }
    exists img, (rows pre). split; [|split; [|split]].
    + eapply Permutation_in; [symmetry; apply pages_perm, Hperm|].
      rewrite Epages. apply Hin. now rewrite <- Eextra.
    + now rewrite HDx.
    + exact Hrange.
    + replace y with (rows pre + (y - rows pre)) at 1 by lia.
      apply (Hshow pre img post E); lia.
Qed.

End MixedWidths.

Lemma strip_of_matching_pages_witness :
  exists strip,
    result (CreateWebtoonStrip (sorter := insertion_sorter)
              (codecs := tagged_codecs) (Toy.disk_of Sample.mixed) "comic.cbz")
      = Ok strip /\
    Dx strip = Dx (Toy.picture 2 3 1) /\
    Dy strip =
      rows (Toy.picture 2 3 1 ::
            filter (fun i => Dx i =? Dx (Toy.picture 2 3 1))
              [Toy.picture 1 5 2; Toy.picture 2 2 4]).
Proof.
  apply (strip_of_matching_pages (sorter := insertion_sorter)
           (codecs := tagged_codecs) (Toy.disk_of Sample.mixed) "comic.cbz"
           Sample.mixed).
  - reflexivity.
  - repeat constructor.
  - reflexivity.
  - vm_compute. discriminate.
  - vm_compute. repeat split; discriminate.
Defined.

Lemma every_pixel_is_a_page_witness :
  exists strip,
    result (CreateWebtoonStrip (sorter := insertion_sorter)
              (codecs := tagged_codecs) (Toy.disk_of Sample.mixed) "comic.cbz")
      = Ok strip /\
    exists img y0,
      In img (pages (codecs := tagged_codecs) Sample.mixed) /\
      Dx img = Dx strip /\ y0 <= 4 < y0 + Dy img /\
      At strip 1 4 = drawn (At img 1 (4 - y0)).
Proof.
  eexists. split; [reflexivity|].
  apply (every_pixel_is_a_page (sorter := insertion_sorter)
           (codecs := tagged_codecs) (Toy.disk_of Sample.mixed) "comic.cbz"
           Sample.mixed _ (Toy.picture 2 3 1)
           [Toy.picture 1 5 2; Toy.picture 2 2 4]).
  - reflexivity.
  - reflexivity.
  - vm_compute. discriminate.
  - reflexivity.
  - vm_compute. discriminate.
  - vm_compute. split; [discriminate|reflexivity].
  - vm_compute. split; [discriminate|reflexivity].
Defined.

(** * [handleWebtoon]

    The request handler, with the parts of [path/filepath], [os] and
    [net/http] it uses.  Paths are Unix paths: '/' is the separator and
    there is no volume name. *)

(** [strings.Split(path, "/")]: the elements of a path. *)
Fixpoint elements (path : string) : list string :=
  match path with
  | EmptyString => [EmptyString]
  | String c rest =>
      if Ascii.eqb c "/"%char then EmptyString :: elements rest
      else
        match elements rest with
        | [] => [String c EmptyString]
        | e :: es => String c e :: es
        end
  end.

(** [strings.Join(elems, sep)]. *)
Fixpoint strings_Join (elems : list string) (sep : string) : string :=
  match elems with
  | [] => EmptyString
  | [e] => e
  | e :: rest => (e ++ sep ++ strings_Join rest sep)%string
  end.

(** The loop of [filepath.Clean], element by element.  [out] holds the
    elements written so far, the last one first; the first [dotdot] of
    them are the ".." that a path which is not rooted begins with, below
    which a later ".." cannot go ([out.w > dotdot] in the source says that
    there is an element to drop). *)
Fixpoint Clean_loop (rooted : bool) (todo out : list string) (dotdot : nat)
  : list string :=
  match todo with
  | [] => rev out
  | e :: rest =>
      if String.eqb e "" then Clean_loop rooted rest out dotdot
      else if String.eqb e "." then Clean_loop rooted rest out dotdot
      else if String.eqb e ".." then
        if (dotdot <? List.length out)%nat
        then Clean_loop rooted rest (tl out) dotdot
        else if negb rooted
             then Clean_loop rooted rest (e :: out) (S (List.length out))
             else Clean_loop rooted rest out dotdot
      else Clean_loop rooted rest (e :: out) dotdot
  end.

Definition filepath_Clean (path : string) : string :=
  match path with
  | EmptyString => "."%string
  | String c _ =>
      let rooted := Ascii.eqb c "/"%char in
      let out := Clean_loop rooted (elements path) [] 0 in
      if rooted then ("/" ++ strings_Join out "/")%string
      else
        match out with
        | [] => "."%string
        | _ => strings_Join out "/"
        end
  end.

(** [filepath.Join(elem...)]: empty elements before the first one that is
    not empty are dropped, the rest is joined with '/' and cleaned. *)
Fixpoint filepath_Join (elem : list string) : string :=
  match elem with
  | [] => EmptyString
  | e :: rest =>
      if String.eqb e "" then filepath_Join rest
      else filepath_Clean (strings_Join elem "/")
  end.

(** The two loops of [filepath.Base], walking the path from its end. *)
Fixpoint drop_slashes (rev_path : list ascii) : list ascii :=
  match rev_path with
  | [] => []
  | c :: rest => if Ascii.eqb c "/"%char then drop_slashes rest else rev_path
  end.

Fixpoint take_element (rev_path seen : list ascii) : list ascii :=
  match rev_path with
  | [] => seen
  | c :: rest => if Ascii.eqb c "/"%char then seen else take_element rest (c :: seen)
  end.

Definition filepath_Base (path : string) : string :=
  if String.eqb path "" then "."%string
  else
    match take_element (drop_slashes (rev (list_ascii_of_string path))) [] with
    | [] => "/"%string
    | last => string_of_list_ascii last
    end.

Example Clean_double_slash :
  filepath_Clean "abc//def//ghi" = "abc/def/ghi"%string.
Proof. reflexivity. Qed.

Example Clean_dotdot_inside :
  filepath_Clean "abc/def/../ghi/../jkl" = "abc/jkl"%string.
Proof. reflexivity. Qed.

Example Clean_dotdot_past_start :
  filepath_Clean "abc/../../././../def" = "../../def"%string.
Proof. reflexivity. Qed.

Example Clean_dotdot_at_root :
  filepath_Clean "/abc/def/../../../ghi/jkl/../../../mno" = "/mno"%string.
Proof. reflexivity. Qed.

Example Clean_to_dot : filepath_Clean "abc/.." = "."%string.
Proof. reflexivity. Qed.

Example Clean_root : filepath_Clean "//" = "/"%string.
Proof. reflexivity. Qed.

Example Join_dot_slash : filepath_Join ["./"; "a/b.cbz"]%string = "a/b.cbz"%string.
Proof. reflexivity. Qed.

Example Base_trailing_slashes : filepath_Base "a/b.cbz//" = "b.cbz"%string.
Proof. reflexivity. Qed.

Example Base_only_slashes : filepath_Base "///" = "/"%string.
Proof. reflexivity. Qed.

(** The constant [cbzDirectory]. *)
Definition cbzDirectory : string := "./".

(** An [*http.Request] as the handler reads it: the method and the
    [url.Values] of the query. *)
Record Request := mkRequest {
  Method : string;
  URL_Query : string -> list string
}.

(** [url.Values.Get]: the first value of the key, or the empty string. *)
Definition Values_Get (v : string -> list string) (key : string) : string :=
  match v key with
  | [] => EmptyString
  | first :: _ => first
  end.

(** What [os.Stat] returns, as far as [os.IsNotExist] tells. *)
Inductive StatResult := Stat_ok | Stat_not_exist | Stat_other_error.

(** The calls the handler makes on its [http.ResponseWriter]. *)
Inductive Call :=
| Header_Set (key value : string)          (* w.Header().Set(key, value) *)
| http_Error (message : string) (code : Z) (* http.Error(w, message, code) *)
| call_streamPNG (img : Image) (returned : outcome bytes).
                                  (* streamPNG(w, img) and what it returned *)

(** The lines the handler prints: those of [CreateWebtoonStrip] and its own. *)
Inductive HandlerLine :=
| line (l : LogLine)
| LogStripError (e : error)       (* "Error creating webtoon strip: %v" *)
| LogStreamError (e : error).     (* "Error streaming PNG: %v" *)

(** A run of the handler: what it printed, what it called, and whether it
    ended in the panic of [image.NewRGBA]. *)
Record Served := mkServed {
  printed : list HandlerLine;
  calls : list Call;
  panicked : bool
}.

(** The text [%v] prints for an error. *)
Definition Error_string (e : error) : string :=
  match e with
  | ErrOpeningCBZ cause => "error opening CBZ file: " ++ cause
  | ErrOpeningFile name cause => "error opening file " ++ name ++ ": " ++ cause
  | ErrReadingFile name cause => "error reading file " ++ name ++ ": " ++ cause
  | ErrNoValidImages => "no valid images found with matching width in the CBZ file"
  | ErrReadingImageData cause => "error reading image data: " ++ cause
  | ErrUnsupportedFormat => "unsupported image format"
  | ErrEncode cause => cause
  end%string.

Definition quote : string := String "034"%char EmptyString.

(** [fmt.Sprintf("inline; filename=\"%s.png\"", filepath.Base(filename))]. *)
Definition disposition (filename : string) : string :=
  ("inline; filename=" ++ quote ++ filepath_Base filename ++ ".png" ++ quote)%string.

(** [filepath.Join(cbzDirectory, filepath.Clean(filename))]. *)
Definition archive_path (filename : string) : string :=
  filepath_Join [cbzDirectory; filepath_Clean filename].

Definition refuse (message : string) (code : Z) : Served :=
  mkServed [] [http_Error message code] false.

Section Handler.

Context {sorter : Sorter} {codecs : Codecs} {encoder : Encoder}.
Variable os_Stat : string -> StatResult.
Variable disk : Disk.

Definition handleWebtoon (r : Request) : Served :=
  if negb (String.eqb (Method r) "GET") then
    refuse "Method not allowed" 405
  else
    let filename := Values_Get (URL_Query r) "file" in
    if String.eqb filename "" then
      refuse "File parameter is required" 400
    else if negb (String.eqb (filepath_Ext filename) ".cbz") then
      refuse "Invalid file extension. Only .cbz files are allowed" 400
    else
      let filePath := archive_path filename in
      match os_Stat filePath with
      | Stat_not_exist => refuse "File not found" 404
      | _ =>
          let '(lines, returned) := CreateWebtoonStrip disk filePath in
          match returned with
          | Err err =>
              mkServed (map line lines ++ [LogStripError err])
                [http_Error ("Error processing file: " ++ Error_string err) 500]
                false
          | Panic => mkServed (map line lines) [] true
          | Ok img =>
              let headers :=
                [ Header_Set "Content-Type" "image/png";
                  Header_Set "Content-Disposition" (disposition filename) ] in
              match result (streamPNG img) with
              | Err err =>
                  mkServed (map line lines ++ [LogStreamError err])
                    (headers ++ [ call_streamPNG img (Err err);
                                  http_Error "Error sending image" 500 ])
                    false
              | returned' =>
                  mkServed (map line lines)
                    (headers ++ [call_streamPNG img returned']) false
              end
          end
      end.

End Handler.

(** A path element that [filepath.Clean] copies: not empty, not "." or
    "..", without '/'. *)
Definition plain_element (e : string) : bool :=
  negb (String.eqb e "") && negb (String.eqb e ".") && negb (String.eqb e "..") &&
  negb (has_slash (list_ascii_of_string e)).

(** [k] times "../". *)
Fixpoint climb (k : nat) : string :=
  match k with
  | O => EmptyString
  | S k' => ("../" ++ climb k')%string
  end.

Definition is_http_Error (c : Call) : bool :=
  match c with http_Error _ _ => true | _ => false end.

Definition is_streamed (c : Call) : bool :=
  match c with call_streamPNG _ (Ok _) => true | _ => false end.

(** A concrete host for the handler. *)
Module Host.

(** An encoder that refuses empty images, as [png.Encoder] does, and
    otherwise writes three bytes. *)
Definition encoder : Encoder :=
  {| png_Encode := fun _ img =>
       if (Dx img =? 0) || (Dy img =? 0)
       then inl "png: invalid format: invalid image size"%string
       else inr ["P"%byte; x4e; x47] |}.

(** A file system with the one file [comic.cbz]. *)
Definition stat : string -> StatResult :=
  fun path => if String.eqb path "comic.cbz" then Stat_ok else Stat_not_exist.

Definition get (filename : string) : Request :=
  mkRequest "GET"
    (fun key => if String.eqb key "file" then [filename] else []).

End Host.

Lemma elements_plain e :
  has_slash (list_ascii_of_string e) = false -> elements e = [e].
Proof.
  induction e as [|c e IH]; cbn [list_ascii_of_string has_slash elements];
    [reflexivity|].
  intros H. apply orb_false_iff in H. destruct H as [-> H]. now rewrite IH.
Qed.

Lemma elements_slash e rest :
  has_slash (list_ascii_of_string e) = false ->
  elements (e ++ String "/"%char rest) = e :: elements rest.
Proof.
  induction e as [|c e IH]; cbn [list_ascii_of_string has_slash elements append].
  - reflexivity.
  - intros H. apply orb_false_iff in H. destruct H as [-> H]. now rewrite IH.
Qed.

Lemma elements_climb k rest :
  elements (climb k ++ rest) = repeat ".."%string k ++ elements rest.
Proof.
  induction k as [|k IH]; cbn [climb repeat app]; [reflexivity|].
  change (("../" ++ climb k) ++ rest)%string
    with (".." ++ String "/"%char (climb k ++ rest))%string.
  rewrite elements_slash by reflexivity. now rewrite IH.
Qed.

Lemma Clean_loop_climb k j rest :
  Clean_loop false (repeat ".."%string k ++ rest) (repeat ".."%string j) j =
  Clean_loop false rest (repeat ".."%string (j + k)) (j + k).
Proof.
  revert j. induction k as [|k IH]; intros j; cbn [repeat app].
  - now rewrite Nat.add_0_r.
  - cbn [Clean_loop String.eqb Ascii.eqb Bool.eqb].
    rewrite repeat_length, Nat.ltb_irrefl. cbn [negb].
    change (".."%string :: repeat ".."%string j) with (repeat ".."%string (S j)).
    rewrite IH. now rewrite Nat.add_succ_r.
Qed.

Lemma Clean_loop_plain rooted e out dotdot :
  plain_element e = true ->
  Clean_loop rooted [e] out dotdot = rev out ++ [e].
Proof.
  unfold plain_element. rewrite !andb_true_iff, !negb_true_iff.
  intros [[[H1 H2] H3] _]. cbn [Clean_loop]. now rewrite H1, H2, H3.
Qed.

Lemma strings_Join_cons e rest sep :
  rest <> [] ->
  strings_Join (e :: rest) sep = (e ++ sep ++ strings_Join rest sep)%string.
Proof. destruct rest; [contradiction|reflexivity]. Qed.

Lemma Join_climb k e :
  strings_Join (repeat ".."%string k ++ [e]) "/" = (climb k ++ e)%string.
Proof.
  induction k as [|k IH]; cbn [repeat app climb]; [reflexivity|].
  rewrite strings_Join_cons by (destruct k; discriminate).
  rewrite IH. reflexivity.
Qed.

Lemma rev_repeat {T} (x : T) k : rev (repeat x k) = repeat x k.
Proof.
  induction k as [|k IH]; cbn [repeat rev]; [reflexivity|].
  rewrite IH. clear IH. induction k as [|k IH]; cbn [repeat app]; [reflexivity|].
  now rewrite IH.
Qed.

(** The elements [Clean] ends with, for [k] times "../" before an element. *)
Lemma Clean_loop_climb_plain k e before :
  plain_element e = true ->
  Forall (fun x => x = ""%string \/ x = "."%string) before ->
  Clean_loop false (before ++ repeat ".."%string k ++ [e]) [] 0 =
  repeat ".."%string k ++ [e].
Proof.
  intros He Hb. induction Hb as [|x before [->| ->] _ IH]; cbn [app].
  - pose proof (Clean_loop_climb k 0 [e]) as E. cbn [repeat Nat.add] in E.
    rewrite E, Clean_loop_plain by assumption. now rewrite rev_repeat.
  - cbn [Clean_loop String.eqb]. exact IH.
  - cbn [Clean_loop String.eqb Ascii.eqb Bool.eqb]. exact IH.
Qed.

Lemma plain_no_slash e :
  plain_element e = true -> has_slash (list_ascii_of_string e) = false.
Proof.
  unfold plain_element. rewrite !andb_true_iff, !negb_true_iff. tauto.
Qed.

Lemma climb_plain_relative k e :
  plain_element e = true ->
  exists c rest, (climb k ++ e)%string = String c rest /\ Ascii.eqb c "/"%char = false.
Proof.
  intros He. destruct k as [|k]; cbn [climb append].
  - pose proof (plain_no_slash e He) as Hs. unfold plain_element in He.
    destruct e as [|c e]; [discriminate|]. exists c, e. split; [reflexivity|].
    cbn [list_ascii_of_string has_slash] in Hs. now apply orb_false_iff in Hs.
  - eexists _, _. split; reflexivity.
Qed.

Lemma Clean_climb_plain k e :
  plain_element e = true -> filepath_Clean (climb k ++ e) = (climb k ++ e)%string.
Proof.
  intros He. destruct (climb_plain_relative k e He) as (c & rest & E & Hc).
  unfold filepath_Clean. rewrite E, Hc, <- E.
  rewrite elements_climb, (elements_plain e) by now apply plain_no_slash.
  pose proof (Clean_loop_climb_plain k e [] He (Forall_nil _)) as L.
  cbn [app] in L. rewrite L, Join_climb.
  destruct k; [|reflexivity]. cbn [repeat app]. reflexivity.
Qed.

(** [Join(cbzDirectory, p)] cleans "./" + "/" + p, a path that is not
    rooted and whose first two elements are dropped. *)
Lemma archive_path_unfold filename :
  archive_path filename =
  match Clean_loop false ("."%string :: ""%string :: elements (filepath_Clean filename))
          [] 0 with
  | [] => "."%string
  | out => strings_Join out "/"
  end.
Proof.
  unfold archive_path, cbzDirectory.
  cbn [filepath_Join String.eqb Ascii.eqb Bool.eqb strings_Join append].
  unfold filepath_Clean at 1. cbn [Ascii.eqb Bool.eqb].
  change (String "." (String "/" (String "/" (filepath_Clean filename))))
    with ("." ++ String "/"%char
            ("" ++ String "/"%char (filepath_Clean filename)))%string.
  rewrite !elements_slash by reflexivity.
  now destruct (Clean_loop false _ [] 0) as [|s [|s' l]].
Qed.

(** X13.  The handler opens, below the directory of archives, the path it
    is asked for when that path is a name or climbs with "../" to a name:
    a file parameter that starts with any number of "../" is not kept
    inside the directory; a leading '/' is dropped. *)
Theorem archive_path_is_not_confined (k : nat) (e : string) :
  plain_element e = true ->
  archive_path (climb k ++ e) = (climb k ++ e)%string /\
  archive_path ("/" ++ e) = e.
Proof.
  intros He. pose proof (plain_no_slash e He) as Hs.
  rewrite !archive_path_unfold. split.
  - rewrite Clean_climb_plain by assumption.
    rewrite elements_climb, (elements_plain e) by assumption.
    pose proof (Clean_loop_climb_plain k e ["."; ""]%string He) as L.
    cbn [app] in L. rewrite L by (repeat constructor; auto).
    rewrite <- Join_climb. now destruct k.
  - assert (filepath_Clean ("/" ++ e) = ("/" ++ e)%string) as ->.
    { unfold filepath_Clean. cbn [append Ascii.eqb Bool.eqb].
      change (String "/" e) with ("" ++ String "/"%char e)%string.
      rewrite elements_slash, (elements_plain e) by auto.
      change (Clean_loop true [""%string; e] [] 0) with (Clean_loop true [e] [] 0).
      now rewrite (Clean_loop_plain true e [] 0 He). }
    change ("/" ++ e)%string with ("" ++ String "/"%char e)%string.
    rewrite elements_slash, (elements_plain e) by auto.
    pose proof (Clean_loop_climb_plain 0 e [".";"";""]%string He) as L.
    cbn [repeat app] in L. rewrite L by (repeat constructor; auto).
    reflexivity.
Qed.

Lemma archive_path_is_not_confined_witness :
  archive_path (climb 2 ++ "secret.cbz") = (climb 2 ++ "secret.cbz")%string /\
  archive_path ("/" ++ "secret.cbz") = "secret.cbz"%string.
Proof.
  apply (archive_path_is_not_confined 2 "secret.cbz"). reflexivity.
Defined.

Lemma string_app_assoc (a b c : string) :
  ((a ++ b) ++ c = a ++ b ++ c)%string.
Proof. induction a as [|x a IH]; cbn [append]; [reflexivity|now rewrite IH]. Qed.

Lemma take_element_shape r seen :
  has_slash seen = false ->
  exists dir stem,
    rev r ++ seen = dir ++ stem ++ seen /\
    take_element r seen = stem ++ seen /\
    has_slash stem = false /\
    (dir = [] \/ exists d, dir = d ++ ["/"%char]).
Proof.
  revert seen. induction r as [|c r IH]; intros seen Hseen; cbn [rev take_element].
  - exists [], []. cbn. auto.
  - destruct (Ascii.eqb_spec c "/") as [->|Hc].
    + exists (rev r ++ ["/"%char]), []. cbn [app]. repeat split; eauto.
    + destruct (IH (c :: seen)) as (dir & stem & E & Et & Hs & Hd).
      { cbn [has_slash]. rewrite Hseen, orb_false_r. now apply Ascii.eqb_neq. }
      exists dir, (stem ++ [c]). rewrite <- !app_assoc. cbn [app].
      repeat split; auto.
      clear - Hs Hc. induction stem as [|x stem IH]; cbn [app has_slash] in *.
      * rewrite orb_false_r. now apply Ascii.eqb_neq.
      * apply orb_false_iff in Hs. destruct Hs as [-> Hs]. now apply IH.
Qed.

(** X14.  For a file parameter that passes the extension test of the
    handler, the name announced in the Content-Disposition header is the
    final element of the parameter, which ends in ".cbz" and has no '/',
    followed by ".png", between double quotes. *)
Theorem disposition_names_final_element (filename : string) :
  filepath_Ext filename = ".cbz"%string ->
  exists dir stem,
    filename = (dir ++ stem ++ ".cbz")%string /\
    has_slash (list_ascii_of_string stem) = false /\
    (dir = ""%string \/ exists d, dir = (d ++ "/")%string) /\
    filepath_Base filename = (stem ++ ".cbz")%string /\
    disposition filename =
      ("inline; filename=" ++ quote ++ stem ++ ".cbz.png" ++ quote)%string.
Proof.
  intros Hext. destruct (Ext_suffix filename) as [front E]. rewrite Hext in E.
  assert (list_ascii_of_string filename =
          list_ascii_of_string front ++ list_ascii_of_string ".cbz") as El
    by (rewrite <- list_ascii_app; now f_equal).
  destruct (take_element_shape (rev (list_ascii_of_string front))
              (list_ascii_of_string ".cbz") eq_refl)
    as (dir & stem & Esplit & Etake & Hs & Hd).
  rewrite rev_involutive in Esplit.
  assert (filepath_Base filename = string_of_list_ascii (stem ++ list_ascii_of_string ".cbz"))
    as Hbase.
  { unfold filepath_Base. destruct filename as [|c0 f0]; [discriminate|].
    rewrite El, rev_app_distr.
    cbn [list_ascii_of_string rev app String.eqb drop_slashes take_element
         Ascii.eqb Bool.eqb].
    cbn [list_ascii_of_string] in Etake. rewrite Etake.
    destruct stem; reflexivity. }
  exists (string_of_list_ascii dir), (string_of_list_ascii stem).
  assert (front = (string_of_list_ascii dir ++ string_of_list_ascii stem)%string)
    as Hfront.
  { rewrite app_assoc in Esplit. apply app_inv_tail in Esplit.
    rewrite <- string_of_list_app, <- Esplit. now rewrite string_of_list_ascii_of_string. }
  split; [|split; [|split; [|split]]].
  - rewrite E, Hfront. apply string_app_assoc.
  - now rewrite list_ascii_of_string_of_list_ascii.
  - destruct Hd as [->|[d ->]]; [now left|right].
    exists (string_of_list_ascii d). now rewrite string_of_list_app.
  - rewrite Hbase, string_of_list_app. reflexivity.
  - unfold disposition. rewrite Hbase, string_of_list_app.
    now rewrite string_app_assoc.
Qed.

Lemma disposition_names_final_element_witness :
  exists dir stem,
    "../vol 1/ch.2.cbz"%string = (dir ++ stem ++ ".cbz")%string /\
    has_slash (list_ascii_of_string stem) = false /\
    (dir = ""%string \/ exists d, dir = (d ++ "/")%string) /\
    filepath_Base "../vol 1/ch.2.cbz" = (stem ++ ".cbz")%string /\
    disposition "../vol 1/ch.2.cbz" =
      ("inline; filename=" ++ quote ++ stem ++ ".cbz.png" ++ quote)%string.
Proof.
  apply (disposition_names_final_element "../vol 1/ch.2.cbz"). reflexivity.
Defined.

Lemma streamPNG_no_panic {encoder : Encoder} img : result (streamPNG img) <> Panic.
Proof. unfold streamPNG. destruct (png_Encode DefaultCompression img); discriminate. Qed.

(** X15.  A request that is not a GET, or has no file parameter, or whose
    file parameter does not end in exactly ".cbz" (in lower case), is
    answered with one error, 405 or 400, that depends on the request
    alone: the file system is not looked at and nothing is printed. *)
Theorem invalid_request_is_refused (r : Request) :
  Method r <> "GET"%string \/
  Values_Get (URL_Query r) "file" = ""%string \/
  filepath_Ext (Values_Get (URL_Query r) "file") <> ".cbz"%string ->
  exists message code,
    (code = 405 \/ code = 400) /\
    forall (sorter : Sorter) (codecs : Codecs) (encoder : Encoder)
           (os_Stat : string -> StatResult) (disk : Disk),
      handleWebtoon os_Stat disk r = refuse message code.
Proof.
  intros H. unfold handleWebtoon.
  destruct (String.eqb_spec (Method r) "GET") as [Hm|Hm]; cbn [negb].
  2: { eexists _, _. split; [left; reflexivity|reflexivity]. }
  destruct (String.eqb_spec (Values_Get (URL_Query r) "file") "") as [Hf|Hf].
  { eexists _, _. split; [right; reflexivity|reflexivity]. }
  destruct (String.eqb_spec (filepath_Ext (Values_Get (URL_Query r) "file")) ".cbz")
    as [He|He]; cbn [negb].
  { destruct H as [H|[H|H]]; contradiction. }
  eexists _, _. split; [right; reflexivity|reflexivity].
Qed.

Lemma invalid_request_is_refused_witness :
  exists message code,
    (code = 405 \/ code = 400) /\
    forall (sorter : Sorter) (codecs : Codecs) (encoder : Encoder)
           (os_Stat : string -> StatResult) (disk : Disk),
      handleWebtoon os_Stat disk (Host.get "comic.CBZ") = refuse message code.
Proof.
  apply (invalid_request_is_refused (Host.get "comic.CBZ")).
  right. right. vm_compute. discriminate.
Defined.

Section HandlerFacts.

Context {sorter : Sorter} {codecs : Codecs} {encoder : Encoder}.
Variable os_Stat : string -> StatResult.
Variable disk : Disk.

(** The runs of the handler past its three tests on the request. *)
Lemma handleWebtoon_cases (r : Request) :
  let filename := Values_Get (URL_Query r) "file" in
  let headers :=
    [ Header_Set "Content-Type" "image/png";
      Header_Set "Content-Disposition" (disposition filename) ] in
  (exists message code, handleWebtoon os_Stat disk r = refuse message code) \/
  (exists lines err,
     handleWebtoon os_Stat disk r =
       mkServed lines
         [http_Error ("Error processing file: " ++ Error_string err) 500] false) \/
  (exists lines, handleWebtoon os_Stat disk r = mkServed lines [] true) \/
  (Method r = "GET"%string /\ filepath_Ext filename = ".cbz"%string /\
   os_Stat (archive_path filename) <> Stat_not_exist /\
   exists lines img,
     result (CreateWebtoonStrip disk (archive_path filename)) = Ok img /\
     ((exists err,
         result (streamPNG img) = Err err /\
         handleWebtoon os_Stat disk r =
           mkServed lines
             (headers ++ [ call_streamPNG img (Err err);
                           http_Error "Error sending image" 500 ]) false) \/
      (exists written,
         result (streamPNG img) = Ok written /\
         handleWebtoon os_Stat disk r =
           mkServed lines (headers ++ [call_streamPNG img (Ok written)]) false))).
Proof.
  unfold handleWebtoon.
  destruct (String.eqb_spec (Method r) "GET") as [Hm|Hm]; cbn [negb];
    [|left; eauto].
  destruct (String.eqb_spec (Values_Get (URL_Query r) "file") "") as [Hf|Hf];
    [left; eauto|].
  destruct (String.eqb_spec (filepath_Ext (Values_Get (URL_Query r) "file")) ".cbz")
    as [He|He]; cbn [negb]; [|left; eauto].
  assert (forall s : StatResult,
            s = Stat_ok \/ s = Stat_other_error -> s <> Stat_not_exist) as Hne
    by (intros s [->| ->]; discriminate).
  destruct (os_Stat (archive_path (Values_Get (URL_Query r) "file"))) eqn:Hs;
    [|left; eauto|].
  all: destruct (CreateWebtoonStrip disk _) as [lines [img|err|]] eqn:Hc;
    cbn [result snd]; [|right; left; eauto|right; right; left; eauto].
  all: right; right; right; repeat (split; [auto; discriminate|]).
  all: pose proof (streamPNG_no_panic img) as Hnp;
    destruct (result (streamPNG img)) as [written|err|] eqn:Hp;
    try contradiction; eexists _, img; (split; [reflexivity|]);
    [right|left]; eauto.
Qed.

(** X16.  Every run of the handler that does not panic answers exactly
    once: it either calls [http.Error] once, as its last call, or streams
    one image without error, never both and never neither; a run that
    panics has called nothing. *)
Theorem exactly_one_response (r : Request) :
  let served := handleWebtoon os_Stat disk r in
  (panicked served = true -> calls served = []) /\
  (panicked served = false ->
   (List.length (filter is_http_Error (calls served)) +
    List.length (filter is_streamed (calls served)) = 1)%nat /\
   (forall message code, In (http_Error message code) (calls served) ->
      exists before, calls served = before ++ [http_Error message code])).
Proof.
  cbn zeta.
  destruct (handleWebtoon_cases r)
    as [(m0 & c0 & ->)|[(lines & err & ->)|[(lines & ->)|
        (_ & _ & _ & lines & img & _ &
         [(err & _ & ->)|(written & _ & ->)])]]];
    cbn [refuse panicked calls app filter is_http_Error is_streamed List.length];
    (split; [try discriminate; auto|]); try discriminate; intros _;
    (split; [reflexivity|]); intros m c Hin;
    repeat (destruct Hin as [Hin|Hin]); try discriminate; try contradiction;
    injection Hin as <- <-.
  - now exists [].
  - now exists [].
  - now exists [ Header_Set "Content-Type" "image/png";
      Header_Set "Content-Disposition"
        (disposition (Values_Get (URL_Query r) "file"));
      call_streamPNG img (Err err) ].
Qed.

(** X17.  The handler sets response headers only when
    [CreateWebtoonStrip] has returned an image for a valid request whose
    file is not reported missing; the headers are then the PNG content
    type and the disposition, and that image is what is handed to
    [streamPNG]. *)
Theorem headers_only_for_a_strip (r : Request) (key value : string) :
  In (Header_Set key value) (calls (handleWebtoon os_Stat disk r)) ->
  let filename := Values_Get (URL_Query r) "file" in
  Method r = "GET"%string /\
  filepath_Ext filename = ".cbz"%string /\
  os_Stat (archive_path filename) <> Stat_not_exist /\
  (key = "Content-Type"%string /\ value = "image/png"%string \/
   key = "Content-Disposition"%string /\ value = disposition filename) /\
  exists img,
    result (CreateWebtoonStrip disk (archive_path filename)) = Ok img /\
    In (call_streamPNG img (result (streamPNG img)))
       (calls (handleWebtoon os_Stat disk r)).
Proof.
  cbn zeta.
  destruct (handleWebtoon_cases r)
    as [(m0 & c0 & ->)|[(lines & err & ->)|[(lines & ->)|
        (Hm & He & Hs & lines & img & Hc &
         [(err & Hp & ->)|(written & Hp & ->)])]]];
    cbn [refuse calls app]; intros Hin;
    repeat (destruct Hin as [Hin|Hin]); try discriminate; try contradiction;
    injection Hin as <- <-; repeat (split; [auto|]); auto;
    exists img; rewrite Hp; cbn [In]; auto.
Qed.

End HandlerFacts.

Lemma exactly_one_response_witness :
  let served :=
    handleWebtoon (sorter := insertion_sorter) (codecs := tagged_codecs)
      (encoder := Host.encoder) Host.stat (Toy.disk_of Toy.zero_first)
      (Host.get "comic.cbz") in
  (panicked served = true -> calls served = []) /\
  (panicked served = false ->
   (List.length (filter is_http_Error (calls served)) +
    List.length (filter is_streamed (calls served)) = 1)%nat /\
   (forall message code, In (http_Error message code) (calls served) ->
      exists before, calls served = before ++ [http_Error message code])).
Proof.
  exact (exactly_one_response (sorter := insertion_sorter)
           (codecs := tagged_codecs) (encoder := Host.encoder)
           Host.stat (Toy.disk_of Toy.zero_first) (Host.get "comic.cbz")).
Defined.

Lemma headers_only_for_a_strip_witness :
  let r := Host.get "comic.cbz" in
  let filename := Values_Get (URL_Query r) "file" in
  Method r = "GET"%string /\
  filepath_Ext filename = ".cbz"%string /\
  Host.stat (archive_path filename) <> Stat_not_exist /\
  ("Content-Disposition"%string = "Content-Type"%string /\
   disposition "comic.cbz" = "image/png"%string \/
   "Content-Disposition"%string = "Content-Disposition"%string /\
   disposition "comic.cbz" = disposition filename) /\
  exists img,
    result (CreateWebtoonStrip (sorter := insertion_sorter)
              (codecs := tagged_codecs) (Toy.disk_of Toy.two_pages)
              (archive_path filename)) = Ok img /\
    In (call_streamPNG img (result (streamPNG (encoder := Host.encoder) img)))
       (calls (handleWebtoon (sorter := insertion_sorter)
                 (codecs := tagged_codecs) (encoder := Host.encoder)
                 Host.stat (Toy.disk_of Toy.two_pages) r)).
Proof.
  apply (headers_only_for_a_strip (sorter := insertion_sorter)
           (codecs := tagged_codecs) (encoder := Host.encoder)
           Host.stat (Toy.disk_of Toy.two_pages) (Host.get "comic.cbz")
           "Content-Disposition" (disposition "comic.cbz")).
  apply in_cons, in_eq.
Defined.

(** The server answers a request for an archive of two pages with the two
    headers and one image. *)
Example two_pages_served :
  exists img,
    handleWebtoon (sorter := insertion_sorter) (codecs := tagged_codecs)
      (encoder := Host.encoder) Host.stat (Toy.disk_of Toy.two_pages)
      (Host.get "comic.cbz") =
    mkServed
      [ line (LogDecoded "01.jpg" "jpeg"); line (LogDecoded "02.png" "png") ]
      [ Header_Set "Content-Type" "image/png";
        Header_Set "Content-Disposition"
          ("inline; filename=" ++ quote ++ "comic.cbz.png" ++ quote);
        call_streamPNG img (Ok ["P"%byte; x4e; x47]) ]
      false /\
    Dx img = 2 /\ Dy img = 4.
Proof. eexists. split; [reflexivity|]. split; reflexivity. Qed.

(** A missing archive, an archive without pages, and an archive whose
    pages are all empty. *)
Example missing_archive_is_404 :
  handleWebtoon (sorter := insertion_sorter) (codecs := tagged_codecs)
    (encoder := Host.encoder) Host.stat (Toy.disk_of Toy.two_pages)
    (Host.get "other.cbz") = refuse "File not found" 404.
Proof. reflexivity. Qed.

Example no_pages_is_500 :
  handleWebtoon (sorter := insertion_sorter) (codecs := tagged_codecs)
    (encoder := Host.encoder) Host.stat (Toy.disk_of Toy.no_candidates)
    (Host.get "comic.cbz") =
  mkServed [LogStripError ErrNoValidImages]
    [ http_Error
        "Error processing file: no valid images found with matching width in the CBZ file"
        500 ]
    false.
Proof. reflexivity. Qed.

(** * When [CreateWebtoonStrip] does not panic *)

Lemma width_comes_from_a_page imgs st :
  commonWidth (fold_left offer imgs st) = commonWidth st \/
  exists img, In img imgs /\ Dx img = commonWidth (fold_left offer imgs st).
Proof.
  revert st. induction imgs as [|i imgs IH]; intros st; cbn [fold_left].
  - now left.
  - destruct (IH (offer st i)) as [E|(img & Hin & E)].
    + rewrite E. unfold offer.
      destruct (commonWidth st =? 0); [right; exists i; split; [now left|reflexivity]|].
      destruct (Dx i =? commonWidth st); now left.
    + right. exists img. split; [now right|assumption].
Qed.

(** X18.  [CreateWebtoonStrip] does not panic when, for every decoded
    page, an image as wide as that page and as high as all decoded pages
    together can be allocated: it returns an image or an error. *)
Theorem no_panic_when_pages_fit {sorter : Sorter} {codecs : Codecs}
    (disk : Disk) (path : string) :
  (forall files img,
     disk path = inr files -> In img (pages files) ->
     allocatable (Dx img) (rows (pages files))) ->
  (exists strip, result (CreateWebtoonStrip disk path) = Ok strip) \/
  (exists e, result (CreateWebtoonStrip disk path) = Err e).
Proof.
  intros Hfit. rewrite CreateWebtoonStrip_unfold.
  destruct (disk path) as [c|files] eqn:Hdisk; [right; eauto|].
  specialize (Hfit files).
  pose proof (sort_Slice_perm files) as Hperm.
  destruct (result (range_files (sort_Slice files) empty_strip))
    as [st| |] eqn:Hrun; [|right; eauto|now apply range_files_no_panic in Hrun].
  apply range_files_Ok in Hrun.
  destruct (images st) as [|i0 l0] eqn:Ei; [right; eauto|]. rewrite <- Ei.
  pose proof (pages_shape (sort_Slice files)) as Hshape.
  destruct (fold_offer_grows _ empty_strip Hshape) as (extra & Ex & Hs & Hle & Hin).
  rewrite <- Hrun in Ex. cbn [images empty_strip app] in Ex.
  rewrite (rows_perm _ _ (pages_perm _ _ (Permutation_sym Hperm))) in Hle.
  assert (forall img, In img (pages (sort_Slice files)) -> In img (pages files))
    as Hback.
  { intros img. apply Permutation_in. symmetry. apply pages_perm, Hperm. }
  pose proof (rows_nonneg _ Hs) as Hpos.
  destruct (strip_built st) as (blank & Hnew & _).
  - rewrite Hrun. apply counted_fold, counted_empty.
  - now rewrite Ex.
  - rewrite Hrun. apply width_fold; [assumption|]. cbn.
    pose proof int_max_pos. lia.
  - rewrite Ex.
    assert (In i0 (pages files)) as H0.
    { apply Hback, Hin. rewrite <- Ex, Ei. now left. }
    destruct (width_comes_from_a_page (pages (sort_Slice files)) empty_strip)
      as [E|(img & Himg & E)]; rewrite <- Hrun in E.
    + cbn [commonWidth empty_strip] in E. rewrite E.
      destruct (Hfit i0 eq_refl H0) as (Hh & _ & _).
      unfold allocatable. pose proof int_max_pos. lia.
    + rewrite <- E. destruct (Hfit img eq_refl (Hback img Himg)) as (Hh & Hw & Hp).
      assert (0 <= Dx img).
      { rewrite Forall_forall in Hshape. now destruct (shape_Dx img (Hshape img Himg)). }
      unfold allocatable. repeat split; try lia. nia.
  - rewrite Hnew. left. eauto.
Qed.

Lemma no_panic_when_pages_fit_witness :
  (exists strip,
     result (CreateWebtoonStrip (sorter := insertion_sorter)
               (codecs := tagged_codecs) (Toy.disk_of Sample.mixed) "comic.cbz")
       = Ok strip) \/
  (exists e,
     result (CreateWebtoonStrip (sorter := insertion_sorter)
               (codecs := tagged_codecs) (Toy.disk_of Sample.mixed) "comic.cbz")
       = Err e).
Proof.
  apply (no_panic_when_pages_fit (sorter := insertion_sorter)
           (codecs := tagged_codecs) (Toy.disk_of Sample.mixed) "comic.cbz").
  intros files img Hdisk. injection Hdisk as <-.
  intros [<-|[<-|[<-|[]]]]; vm_compute; repeat split; discriminate.
Defined.
